(** * AstroChain: a hash-chained ledger gated by an astronomical fingerprint

    Shallow embedding of [src/core/blockchain.py] and
    [src/consensus/proof_of_astronomy.py].

    Conventions of the embedding:
    - a Python [str] is a [string] holding its UTF-8 encoding, so that
      [s.encode()] is the identity on the model and [startswith],
      [replace] and concatenation agree with the byte-level operations;
    - a Python [int] is a [Z];
    - a Python [float] is an IEEE 754 binary64 value ([spec_float] at
      precision 53 and maximal exponent 1024);
    - [hashlib.sha256(...).hexdigest()] is the function [sha256_hex]
      below, an executable rendering of FIPS 180-4;
    - readings of the clock ([datetime.utcnow()], [time.time()]) are
      explicit arguments of the operation that reads them;
    - a raised exception is the [None] of an [option] result. *)

From Stdlib Require Import ZArith String Ascii List Bool Lia.
From Stdlib Require Import DecimalString DecimalPos DecimalN DecimalZ DecimalFacts.
From Stdlib Require Import QArith Qround Qabs.
From Stdlib Require Import Floats.SpecFloat.
From Equations Require Import Equations.
From stdpp Require Import base option list.
Import ListNotations.

Local Open Scope string_scope.
Local Open Scope list_scope.
Local Open Scope Z_scope.

(** String concatenation, Python's [+] on [str] and the juxtaposition of
    the fields of an f-string. *)
Infix "+++" := String.append (right associativity, at level 60).

(** ** SHA-256 (FIPS 180-4) on 32-bit words held in [Z] *)

Module Sha256.

Definition mask32 (x : Z) : Z := Z.land x 4294967295.

Definition add32 (x y : Z) : Z := mask32 (x + y).

Definition rotr (n x : Z) : Z :=
  Z.lor (Z.shiftr x n) (mask32 (Z.shiftl x (32 - n))).

Definition not32 (x : Z) : Z := Z.lxor x 4294967295.

Definition Ch (x y z : Z) : Z :=
  Z.lxor (Z.land x y) (Z.land (not32 x) z).

Definition Maj (x y z : Z) : Z :=
  Z.lxor (Z.lxor (Z.land x y) (Z.land x z)) (Z.land y z).

Definition Sigma0 (x : Z) : Z :=
  Z.lxor (Z.lxor (rotr 2 x) (rotr 13 x)) (rotr 22 x).

Definition Sigma1 (x : Z) : Z :=
  Z.lxor (Z.lxor (rotr 6 x) (rotr 11 x)) (rotr 25 x).

Definition sigma0 (x : Z) : Z :=
  Z.lxor (Z.lxor (rotr 7 x) (rotr 18 x)) (Z.shiftr x 3).

Definition sigma1 (x : Z) : Z :=
  Z.lxor (Z.lxor (rotr 17 x) (rotr 19 x)) (Z.shiftr x 10).

(** The first [n] primes, by trial division. *)
Definition is_prime (p : Z) : bool :=
forallb (fun d => negb (p mod d =? 0))
        (map Z.of_nat (seq 2 (Z.to_nat (Z.sqrt p) - 1))).

Definition primes (n : nat) : list Z :=
firstn n (filter is_prime (map Z.of_nat (seq 2 400))).

(** The integer cube root of [n], one bit at a time from bit [bits - 1]
    down. *)
Fixpoint cube_root_bits (bits : nat) (n r : Z) : Z :=
match bits with
| O => r
| S b =>
    let r' := r + 2 ^ Z.of_nat b in
    cube_root_bits b n (if r' * r' * r' <=? n then r' else r)
end.

(** The round constants: the first 32 bits of the fractional parts of
    the cube roots of the first 64 primes. *)
Definition K : list Z :=
Eval vm_compute in
  map (fun p => mask32 (cube_root_bits 40 (p * 2 ^ 96) 0)) (primes 64).

(** The initial hash value: the first 32 bits of the fractional parts
    of the square roots of the first 8 primes. *)
Definition H0 : list Z :=
Eval vm_compute in
  map (fun p => mask32 (Z.sqrt (p * 2 ^ 64))) (primes 8).

(** Padding: a [1] bit, zero bits up to 56 modulo 64 bytes, then the
    bit length on 8 bytes, most significant first. *)
Definition be_bytes (n : nat) (x : Z) : list Z :=
  map (fun i => Z.land (Z.shiftr x (8 * Z.of_nat i)) 255) (rev (seq 0 n)).

Definition pad (msg : list Z) : list Z :=
  let len := Z.of_nat (length msg) in
  let zeros := Z.to_nat ((55 - len) mod 64) in
  msg ++ [128] ++ repeat 0 zeros ++ be_bytes 8 (8 * len).

Fixpoint words_of (fuel : nat) (bs : list Z) : list Z :=
  match fuel, bs with
  | S k, b0 :: b1 :: b2 :: b3 :: rest =>
      (Z.shiftl b0 24 + Z.shiftl b1 16 + Z.shiftl b2 8 + b3)
        :: words_of k rest
  | _, _ => []
  end.

(** The schedule is kept most recent word first: at step [t] the list
    is [W(t-1); W(t-2); ...]. *)
Definition next_w (ws : list Z) : Z :=
  add32 (add32 (sigma1 (nth 1 ws 0)) (nth 6 ws 0))
        (add32 (sigma0 (nth 14 ws 0)) (nth 15 ws 0)).

Fixpoint extend (n : nat) (ws : list Z) : list Z :=
  match n with
  | O => ws
  | S k => extend k (next_w ws :: ws)
  end.

Definition schedule (blk : list Z) : list Z :=
  rev (extend 48 (rev blk)).

Record regs := Regs { ra : Z; rb : Z; rc : Z; rd : Z;
                      re : Z; rf : Z; rg : Z; rh : Z }.

Definition round (s : regs) (kw : Z * Z) : regs :=
  let t1 := add32 (add32 (add32 (add32 (rh s) (Sigma1 (re s)))
                                (Ch (re s) (rf s) (rg s)))
                         (fst kw)) (snd kw) in
  let t2 := add32 (Sigma0 (ra s)) (Maj (ra s) (rb s) (rc s)) in
  Regs (add32 t1 t2) (ra s) (rb s) (rc s) (add32 (rd s) t1)
       (re s) (rf s) (rg s).

Definition regs_of (h : list Z) : regs :=
  Regs (nth 0 h 0) (nth 1 h 0) (nth 2 h 0) (nth 3 h 0)
       (nth 4 h 0) (nth 5 h 0) (nth 6 h 0) (nth 7 h 0).

Definition list_of (s : regs) : list Z :=
  [ra s; rb s; rc s; rd s; re s; rf s; rg s; rh s].

Definition compress (h : list Z) (blk : list Z) : list Z :=
  let s := fold_left round (combine K (schedule blk)) (regs_of h) in
  map (fun p => add32 (fst p) (snd p)) (combine h (list_of s)).

Fixpoint blocks (fuel : nat) (ws : list Z) (h : list Z) : list Z :=
  match fuel with
  | O => h
  | S k =>
      match ws with
      | [] => h
      | _ => blocks k (skipn 16 ws) (compress h (firstn 16 ws))
      end
  end.

Definition digest (msg : list Z) : list Z :=
  let bs := pad msg in
  let ws := words_of (length bs) bs in
  blocks (length ws) ws H0.

Definition hex_digit (d : Z) : ascii :=
  if d <? 10 then ascii_of_nat (Z.to_nat (48 + d))
  else ascii_of_nat (Z.to_nat (87 + d)).

Definition hex_of_word (w : Z) : string :=
  fold_right (fun i acc => String (hex_digit (Z.land (Z.shiftr w (4 * Z.of_nat i)) 15)) acc)
             EmptyString (rev (seq 0 8)).

Definition bytes_of_string (s : string) : list Z :=
  map (fun c => Z.of_nat (nat_of_ascii c)) (list_ascii_of_string s).

Definition hexdigest (s : string) : string :=
  fold_right (fun w acc => hex_of_word w +++ acc) EmptyString
             (digest (bytes_of_string s)).

End Sha256.

(** [hashlib.sha256(s.encode()).hexdigest()]. *)
Definition sha256_hex (s : string) : string := Sha256.hexdigest s.

(** ** Python values *)

(** [str(n)] for an [int]. *)
Definition str_int (n : Z) : string := NilZero.string_of_int (Z.to_int n).

(** [s.startswith(p)]. *)
Definition startswith (s p : string) : bool := String.prefix p s.

(** [s.replace(old, new)] for a non-empty [old]: every occurrence, found
    left to right without overlap.  [skip] counts the characters of an
    occurrence still to drop. *)
Fixpoint replace_from (old new : string) (skip : nat) (s : string) : string :=
  match s with
  | EmptyString => EmptyString
  | String c s' =>
      match skip with
      | S k => replace_from old new k s'
      | O =>
          if String.prefix old s
          then new +++ replace_from old new (String.length old - 1) s'
          else String c (replace_from old new 0 s')
      end
  end.

Definition replace (old new s : string) : string := replace_from old new 0 s.

(** [sep.join(parts)]. *)
Definition join (sep : string) (parts : list string) : string :=
  String.concat sep parts.

(** A Python number: an [int] or a [float]. *)
Inductive number :=
| Int (z : Z)
| Float (f : spec_float).

Module Py.

Definition prec : Z := 53.
Definition emax : Z := 1024.

(** [float(n)] for an [int]: the nearest binary64 value, ties to even;
    [OverflowError] when it is out of range. *)
Definition float_of_int (z : Z) : option spec_float :=
  match binary_normalize prec emax z 0 false with
  | S754_infinity _ => None
  | f => Some f
  end.

(** [float(x)] for a number. *)
Definition float (x : number) : option spec_float :=
  match x with
  | Int z => float_of_int z
  | Float f => Some f
  end.

(** [a + b] and [a - b]: exact on two [int]s, binary64 arithmetic as
    soon as one operand is a [float]. *)
Definition add (a b : number) : option number :=
  match a, b with
  | Int x, Int y => Some (Int (x + y))
  | _, _ =>
      x ← float a; y ← float b; Some (Float (SFadd prec emax x y))
  end.

Definition sub (a b : number) : option number :=
  match a, b with
  | Int x, Int y => Some (Int (x - y))
  | _, _ =>
      x ← float a; y ← float b; Some (Float (SFsub prec emax x y))
  end.

End Py.

(** ** Binary64 values: conversion from decimal, [round] and [repr] *)

Module PyFloat.

Import Py.

(** The nearest binary64 value to [n / d], ties to even, with sign
    [neg]. *)
Definition of_ratio (neg : bool) (n d : positive) : spec_float :=
  let '(q, e, loc) := SFdiv_core_binary prec emax (Zpos n) 0 (Zpos d) 0 in
  binary_round_aux prec emax neg q e loc.

(** The value a decimal literal [m e q] denotes: the nearest binary64
    value to [m * 10 ^ q]. *)
Definition of_decimal (neg : bool) (m : Z) (q : Z) : spec_float :=
  match m with
  | Zpos p =>
      match q with
      | Zneg k => of_ratio neg p (Pos.pow 10 k)
      | _ => binary_normalize prec emax
               (if neg then - (m * 10 ^ q) else m * 10 ^ q) 0 false
      end
  | _ => S754_zero neg
  end.

(** The exact value of a finite binary64 number, sign dropped. *)
Definition magnitude (m : positive) (e : Z) : Q :=
  inject_Z (Zpos m) * Qpower 2 e.

(** The exact value of a number that is not an infinity or a NaN. *)
Definition value (x : spec_float) : Q :=
  match x with
  | S754_finite s m e =>
      if s then Qopp (magnitude m e) else magnitude m e
  | _ => 0
  end.

(** The integer nearest to [x], ties to the even one. *)
Definition round_half_even (x : Q) : Z :=
  let f := Qfloor x in
  match Qcompare (x - inject_Z f)%Q (1 # 2)%Q with
  | Lt => f
  | Gt => f + 1
  | Eq => if Z.even f then f else f + 1
  end.

(** [round(x, ndigits)] for [0 <= ndigits]: the decimal with [ndigits]
    places nearest to the exact value of [x], ties to even, converted
    back to binary64.  Infinities and NaN round to themselves. *)
Definition round (x : spec_float) (ndigits : Z) : spec_float :=
  match x with
  | S754_finite s m e =>
      of_decimal s (round_half_even (magnitude m e * Qpower 10 ndigits)%Q)
                 (- ndigits)
  | _ => x
  end.

(** The [p] with [10 ^ (p - 1) <= x < 10 ^ p], for [0 < x]. *)
Definition decade (x : Q) : Z :=
  let ndigits (n : Z) := Z.of_nat (String.length (str_int n)) in
  let p0 := if Qle_bool 1 x then ndigits (Qfloor x)
            else 1 - ndigits (Qfloor (/ x)%Q) in
  if Qle_bool (Qpower 10 p0) x then p0 + 1 else p0.

(** The decimal [d * 10 ^ q] nearest to [x] among those with [k]
    significant digits that read back as the binary64 number [m * 2 ^ e],
    if there is one. *)
Definition shortest_at (m : positive) (e : Z) (p : Z) (k : Z)
  : option (Z * Z) :=
  let x := magnitude m e in
  let q := p - k in
  let scaled := (x * Qpower 10 (- q))%Q in
  let lo := Qfloor scaled in
  let hi := lo + 1 in
  let reads_back (d : Z) :=
    match of_decimal false d q with
    | S754_finite _ m' e' => Pos.eqb m' m && Z.eqb e' e
    | _ => false
    end in
  match reads_back lo, reads_back hi with
  | true, true =>
      match Qcompare (scaled - inject_Z lo)%Q (inject_Z hi - scaled)%Q with
      | Lt => Some (lo, q)
      | Gt => Some (hi, q)
      | Eq => Some (if Z.even lo then lo else hi, q)
      end
  | true, false => Some (lo, q)
  | false, true => Some (hi, q)
  | false, false => None
  end.

(** The search from [k] digits upwards.  Seventeen significant digits
    identify every binary64 value, so the search ends before the fuel
    does. *)
Fixpoint shortest_from (m : positive) (e : Z) (p : Z) (k : Z) (fuel : nat)
  : Z * Z :=
  match fuel with
  | O => (Zpos m, e)
  | S fuel' =>
      match shortest_at m e p k with
      | Some r => r
      | None => shortest_from m e p (k + 1) fuel'
      end
  end.

(** Drop the trailing zeros of the digit string of [d]. *)
Fixpoint strip_zeros (fuel : nat) (d q : Z) : Z * Z :=
  match fuel with
  | O => (d, q)
  | S fuel' =>
      if (0 <? d) && (d mod 10 =? 0) then strip_zeros fuel' (d / 10) (q + 1)
      else (d, q)
  end.

(** The shortest digit string that reads back as [m * 2 ^ e], and the
    position of the decimal point relative to its start. *)
Definition shortest_digits (m : positive) (e : Z) : string * Z :=
  let p := decade (magnitude m e) in
  let '(d, q) := shortest_from m e p 1 17 in
  let '(d, q) := strip_zeros 400 d q in
  let ds := str_int d in
  (ds, q + Z.of_nat (String.length ds)).

Definition zeros (n : Z) : string :=
  string_of_list_ascii (repeat "0"%char (Z.to_nat n)).

(** ["e%+.02d" % n]. *)
Definition format_exponent (n : Z) : string :=
  let a := str_int (Z.abs n) in
  "e" +++ (if n <? 0 then "-" else "+")
  +++ (if (String.length a <? 2)%nat then "0" +++ a else a).

Definition repr_finite (m : positive) (e : Z) : string :=
  let '(ds, decpt) := shortest_digits m e in
  let n := Z.of_nat (String.length ds) in
  if (decpt <=? -4) || (16 <? decpt) then
    String.substring 0 1 ds
    +++ (if 1 <? n then "." +++ String.substring 1 (String.length ds - 1) ds
         else "")
    +++ format_exponent (decpt - 1)
  else if decpt <=? 0 then "0." +++ zeros (- decpt) +++ ds
  else if n <=? decpt then ds +++ zeros (decpt - n) +++ ".0"
  else String.substring 0 (Z.to_nat decpt) ds +++ "."
       +++ String.substring (Z.to_nat decpt) (String.length ds - Z.to_nat decpt) ds.

(** [repr(x)], which is also [str(x)] and the rendering of [x] in an
    f-string. *)
Definition repr (x : spec_float) : string :=
  match x with
  | S754_zero s => if s then "-0.0" else "0.0"
  | S754_infinity s => if s then "-inf" else "inf"
  | S754_nan => "nan"
  | S754_finite s m e => (if s then "-" else "") +++ repr_finite m e
  end.

End PyFloat.

(** ** [datetime] values and [isoformat] *)

(** A [datetime.datetime]; [tzinfo] is the UTC offset in microseconds of
    an aware value and [None] for a naive one. *)
Module Datetime.

Record t := mk
  { year : Z; month : Z; day : Z;
    hour : Z; minute : Z; second : Z; microsecond : Z;
    tzinfo : option Z }.

(** ["%0<w>d" % n] for a non-negative [n]. *)
Definition zpad (w : nat) (n : Z) : string :=
  let s := str_int n in
  string_of_list_ascii (repeat "0"%char (w - String.length s)) +++ s.

(** The UTC offset as [isoformat] prints it: [+HH:MM], with [:SS] and
    [.ffffff] only when they are not zero. *)
Definition format_utcoffset (off : Z) : string :=
  let sign := if off <? 0 then "-" else "+" in
  let a := Z.abs off in
  let us := a mod 1000000 in
  let s := a / 1000000 in
  let hh := s / 3600 in
  let mm := (s mod 3600) / 60 in
  let ss := s mod 60 in
  sign +++ zpad 2 hh +++ ":" +++ zpad 2 mm +++
  (if negb (us =? 0) then ":" +++ zpad 2 ss +++ "." +++ zpad 6 us
   else if negb (ss =? 0) then ":" +++ zpad 2 ss
   else "").

(** [dt.isoformat()]. *)
Definition isoformat (dt : t) : string :=
  zpad 4 (year dt) +++ "-" +++ zpad 2 (month dt) +++ "-" +++ zpad 2 (day dt)
  +++ "T" +++ zpad 2 (hour dt) +++ ":" +++ zpad 2 (minute dt)
  +++ ":" +++ zpad 2 (second dt)
  +++ (if negb (microsecond dt =? 0) then "." +++ zpad 6 (microsecond dt) else "")
  +++ match tzinfo dt with
      | Some off => format_utcoffset off
      | None => ""
      end.

(** [dt.replace(minute=m, second=0, microsecond=0)]. *)
Definition replace_minute (dt : t) (m : Z) : t :=
  mk (year dt) (month dt) (day dt) (hour dt) m 0 0 (tzinfo dt).

Definition is_leap (y : Z) : bool :=
  (y mod 4 =? 0) && (negb (y mod 100 =? 0) || (y mod 400 =? 0)).

Definition days_before_year (y : Z) : Z :=
  let p := y - 1 in p * 365 + p / 4 - p / 100 + p / 400.

Definition days_before_month (y m : Z) : Z :=
  nth (Z.to_nat (m - 1))
      [0; 31; 59; 90; 120; 151; 181; 212; 243; 273; 304; 334] 0
  + (if (2 <? m) && is_leap y then 1 else 0).

(** [dt.toordinal()]: day 1 is 0001-01-01. *)
Definition toordinal (dt : t) : Z :=
  days_before_year (year dt) + days_before_month (year dt) (month dt) + day dt.

(** Microseconds since 0001-01-01T00:00:00 of the naive fields. *)
Definition to_microseconds (dt : t) : Z :=
  (((toordinal dt - 1) * 24 + hour dt) * 60 + minute dt) * 60000000
  + second dt * 1000000 + microsecond dt.

(** [a - b] as a [timedelta] in microseconds; [TypeError] when exactly
    one of the two is aware. *)
Definition sub (a b : t) : option Z :=
  match tzinfo a, tzinfo b with
  | None, None => Some (to_microseconds a - to_microseconds b)
  | Some oa, Some ob =>
      Some ((to_microseconds a - oa) - (to_microseconds b - ob))
  | _, _ => None
  end.

End Datetime.

(** ** A reader for ISO 8601 timestamps *)

(** The grammar that [datetime.fromisoformat] documents, which is what
    [isoformat] writes:
    [YYYY-MM-DD[*HH[:MM[:SS[.fff[fff]]]][+HH:MM[:SS[.ffffff]]]]].
    The gate below takes its parser as an argument; this reader is the
    instance used on concrete timestamps. *)
Module Iso.

Definition digit (c : ascii) : option Z :=
  let n := nat_of_ascii c in
  if ((48 <=? n) && (n <=? 57))%nat then Some (Z.of_nat n - 48) else None.

(** Exactly [n] digits at the front of [s]. *)
Fixpoint digits (n : nat) (s : string) (acc : Z) : option (Z * string) :=
  match n with
  | O => Some (acc, s)
  | S k =>
      match s with
      | String c s' => d ← digit c; digits k s' (10 * acc + d)
      | EmptyString => None
      end
  end.

Definition expect (c : ascii) (s : string) : option string :=
  match s with
  | String c' s' => if Ascii.eqb c c' then Some s' else None
  | EmptyString => None
  end.

Definition starts (c : ascii) (s : string) : bool :=
  match s with
  | String c' _ => Ascii.eqb c c'
  | EmptyString => false
  end.

(** [.fff] or [.ffffff], in microseconds. *)
Definition fraction (s : string) : option (Z * string) :=
  match digits 6 s 0 with
  | Some r => Some r
  | None => '(ms, s') ← digits 3 s 0; Some (ms * 1000, s')
  end.

(** [HH[:MM[:SS[.fff[fff]]]]] and what follows it. *)
Definition clock (s : string) : option (Z * Z * Z * Z * string) :=
  '(hh, s) ← digits 2 s 0;
  if negb (starts ":" s) then Some (hh, 0, 0, 0, s) else
  s ← expect ":" s;
  '(mm, s) ← digits 2 s 0;
  if negb (starts ":" s) then Some (hh, mm, 0, 0, s) else
  s ← expect ":" s;
  '(ss, s) ← digits 2 s 0;
  if negb (starts "." s) then Some (hh, mm, ss, 0, s) else
  s ← expect "." s;
  '(us, s) ← fraction s;
  Some (hh, mm, ss, us, s).

(** The UTC offset after the time, in microseconds. *)
Definition offset (s : string) : option (option Z) :=
  match s with
  | EmptyString => Some None
  | String c s' =>
      sign ← (if Ascii.eqb c "+" then Some 1
              else if Ascii.eqb c "-" then Some (-1) else None);
      '(hh, mm, ss, us, rest) ← clock s';
      let off := ((hh * 60 + mm) * 60 + ss) * 1000000 + us in
      if String.eqb rest ""
         && existsb (Nat.eqb (String.length s')) [5; 8; 15]%nat
         && (off <? 86400000000)
      then Some (Some (sign * off)) else None
  end.

Definition days_in_month (y m : Z) : Z :=
  if (m =? 2) && Datetime.is_leap y then 29
  else nth (Z.to_nat (m - 1)) [31; 28; 31; 30; 31; 30; 31; 31; 30; 31; 30; 31] 0.

Definition fromisoformat (s : string) : option Datetime.t :=
  '(y, s) ← digits 4 s 0;
  s ← expect "-" s;
  '(m, s) ← digits 2 s 0;
  s ← expect "-" s;
  '(d, s) ← digits 2 s 0;
  '(hh, mm, ss, us, tz) ←
    match s with
    | EmptyString => Some (0, 0, 0, 0, None)
    | String _ s' =>
        '(hh, mm, ss, us, rest) ← clock s';
        tz ← offset rest;
        Some (hh, mm, ss, us, tz)
    end;
  if (1 <=? y) && (1 <=? m) && (m <=? 12) && (1 <=? d)
     && (d <=? days_in_month y m)
     && (hh <? 24) && (mm <? 60) && (ss <? 60)
  then Some (Datetime.mk y m d hh mm ss us tz)
  else None.

End Iso.

(** ** The astronomical snapshot (a nested [dict]) *)

(** An absent key is a [None]. *)
Module Snapshot.

Record Iss := mkIss
  { latitude : option number; longitude : option number }.

Record Solar := mkSolar { flux : option number }.

Record Sources := mkSources { iss : option Iss; solar : option Solar }.

Record t := mk
  { type : option string;
    timestamp : option string;
    sources : option Sources;
    astronomical_hash : option string }.

(** [d.get(key, "")]. *)
Definition get_or_empty (v : option string) : string := default "" v.

End Snapshot.

(** ** Transactions *)

Module Transaction.

(** The attributes of a [Transaction] object.  [tx_hash] is the value
    stored at construction; the ledger and the gate read it and never
    recompute it. *)
Record t := mk
  { from_address : string;
    to_address : string;
    amount : number;
    timestamp : string;
    data : list (string * string);
    tx_hash : string }.

End Transaction.

(** ** Blocks *)

Module Block.

Record t := mk
  { index : Z;
    timestamp : string;
    transactions : list Transaction.t;
    previous_hash : string;
    astronomical_data : Snapshot.t;
    astronomical_hash : string;
    merkle_root : string;
    nonce : Z;
    hash : string }.

(** One pass of the [while] body of [calculate_merkle_root]: duplicate
    the last hash when the count is odd, then hash the entries at
    indices [i], [i + 1] for [i] in [range(0, len, 2)]. *)
Definition duplicate_last (tx_hashes : list string) : list string :=
  if (length tx_hashes mod 2 =? 1)%nat
  then tx_hashes ++ [List.last tx_hashes ""]
  else tx_hashes.

(** [range(0, n, 2)]. *)
Definition range_step2 (n : nat) : list nat :=
  map (fun k => (2 * k)%nat) (seq 0 ((n + 1) / 2)).

Definition merkle_pass (tx_hashes : list string) : list string :=
  let tx_hashes := duplicate_last tx_hashes in
  map (fun i => sha256_hex (nth i tx_hashes "" +++ nth (i + 1) tx_hashes ""))
      (range_step2 (length tx_hashes)).

(** The [while len(tx_hashes) > 1] loop; every pass shortens the list. *)
Equations? merkle_loop (tx_hashes : list string) : list string
  by wf (length tx_hashes) lt :=
  merkle_loop tx_hashes with le_lt_dec (length tx_hashes) 1 := {
    | left _ => tx_hashes
    | right Hgt => merkle_loop (merkle_pass tx_hashes) }.
Proof.
  unfold merkle_pass, range_step2, duplicate_last.
  rewrite !length_map, length_seq.
  destruct (Nat.eqb_spec (length tx_hashes mod 2) 1);
    rewrite ?length_app; simpl length;
    apply Nat.Div0.div_lt_upper_bound;
    pose proof (Nat.div_mod_eq (length tx_hashes) 2); lia.
Defined.

(** [Block.calculate_merkle_root] on the block's transaction list. *)
Definition calculate_merkle_root_of (txs : list Transaction.t) : string :=
  match txs with
  | [] => sha256_hex ""
  | _ => nth 0 (merkle_loop (map Transaction.tx_hash txs)) ""
  end.

Definition calculate_merkle_root (b : t) : string :=
  calculate_merkle_root_of (transactions b).

(** [Block.calculate_hash]: the f-string of six attributes, hashed. *)
Definition calculate_hash (b : t) : string :=
  sha256_hex (str_int (index b) +++ timestamp b +++ previous_hash b
              +++ merkle_root b +++ astronomical_hash b
              +++ str_int (nonce b)).

(** [Block.__init__]; [now] is the reading of [datetime.utcnow()]. *)
Definition init (now : Datetime.t) (index : Z)
    (transactions : list Transaction.t) (previous_hash : string)
    (astronomical_data : Snapshot.t) : t :=
  let b0 := mk index (Datetime.isoformat now) transactions previous_hash
               astronomical_data
               (Snapshot.get_or_empty (Snapshot.astronomical_hash astronomical_data))
               "" 0 "" in
  let b1 := mk (Block.index b0) (timestamp b0) (Block.transactions b0)
               (Block.previous_hash b0) (Block.astronomical_data b0)
               (astronomical_hash b0) (calculate_merkle_root b0)
               0 "" in
  mk (Block.index b1) (timestamp b1) (Block.transactions b1)
     (Block.previous_hash b1) (Block.astronomical_data b1)
     (astronomical_hash b1) (merkle_root b1) (nonce b1)
     (calculate_hash b1).

End Block.

(** ** The ledger *)

Module AstroBlockchain.

Record t := mk
  { chain : list Block.t;
    pending_transactions : list Transaction.t }.

Definition genesis_astronomical_data : Snapshot.t :=
  Snapshot.mk (Some "genesis") None None
    (Some "0000000000000000000000000000000000000000000000000000000000000000").

(** [create_genesis_block]. *)
Definition create_genesis_block (now : Datetime.t) (self : t) : t :=
  let genesis_block := Block.init now 0 [] "0" genesis_astronomical_data in
  mk (chain self ++ [genesis_block]) (pending_transactions self).

(** [AstroBlockchain()]. *)
Definition init (now : Datetime.t) : t :=
  create_genesis_block now (mk [] []).

(** [self.chain[-1]]; [IndexError] on an empty chain. *)
Definition get_latest_block (self : t) : option Block.t :=
  last (chain self).

Definition add_transaction (transaction : Transaction.t) (self : t) : t :=
  mk (chain self) (pending_transactions self ++ [transaction]).

(** [create_block]: the new block and the ledger after the call. *)
Definition create_block (now : Datetime.t) (astronomical_data : Snapshot.t)
    (self : t) : option (Block.t * t) :=
  let index := Z.of_nat (length (chain self)) in
  latest ← get_latest_block self;
  let previous_hash := Block.hash latest in
  let transactions := pending_transactions self in
  let self := mk (chain self) [] in
  let new_block :=
    Block.init now index transactions previous_hash astronomical_data in
  let self := mk (chain self ++ [new_block]) (pending_transactions self) in
  Some (new_block, self).

(** The body of the [for i in range(1, len(self.chain))] loop of
    [is_chain_valid], over the indices still to visit.  Both lookups
    are in range for every index of the loop. *)
Fixpoint is_chain_valid_loop (chain : list Block.t) (indices : list nat)
  : bool :=
  match indices with
  | [] => true
  | i :: rest =>
      match chain !! i, chain !! (i - 1)%nat with
      | Some current_block, Some previous_block =>
          if negb (String.eqb (Block.hash current_block)
                              (Block.calculate_hash current_block))
          then false
          else if negb (String.eqb (Block.previous_hash current_block)
                                   (Block.hash previous_block))
          then false
          else is_chain_valid_loop chain rest
      | _, _ => false
      end
  end.

Definition is_chain_valid (self : t) : bool :=
  is_chain_valid_loop (chain self) (seq 1 (length (chain self) - 1)).

(** The two [if]s of the inner loop body of [get_balance]. *)
Definition balance_step (address : string) (balance : number)
    (transaction : Transaction.t) : option number :=
  balance ←
    (if String.eqb (Transaction.from_address transaction) address
     then Py.sub balance (Transaction.amount transaction)
     else Some balance);
  if String.eqb (Transaction.to_address transaction) address
  then Py.add balance (Transaction.amount transaction)
  else Some balance.

(** A [for] loop whose body can raise. *)
Fixpoint foldM {A B : Type} (f : B -> A -> option B) (l : list A) (b : B)
  : option B :=
  match l with
  | [] => Some b
  | x :: l' => b' ← f b x; foldM f l' b'
  end.

Definition get_balance (self : t) (address : string) : option number :=
  foldM (fun balance block =>
           foldM (balance_step address) (Block.transactions block) balance)
        (chain self) (Int 0).

End AstroBlockchain.

(** The sum of the balances of a list of addresses, as [sum(...)] adds
    them: left to right, from [0]. *)
Definition sum_balances (ledger : AstroBlockchain.t) (addresses : list string)
  : option number :=
  AstroBlockchain.foldM
    (fun acc a => b ← AstroBlockchain.get_balance ledger a; Py.add acc b)
    addresses (Int 0).

(** Ledgers reachable from [AstroBlockchain()] by [add_transaction] and
    [create_block]. *)
Inductive reachable : AstroBlockchain.t -> Prop :=
| reach_init now : reachable (AstroBlockchain.init now)
| reach_add tx s :
    reachable s -> reachable (AstroBlockchain.add_transaction tx s)
| reach_create now snapshot s b s' :
    reachable s ->
    AstroBlockchain.create_block now snapshot s = Some (b, s') ->
    reachable s'.

(** ** The serialized form of a block *)

Module BlockData.

(** The [dict] that [Block.to_dict] builds; a caller may hand
    [validate_astronomical_block] one without the
    ["astronomical_data"] key. *)
Record t := mk
  { index : Z;
    timestamp : string;
    previous_hash : string;
    transactions : list Transaction.t;
    astronomical_data : option Snapshot.t;
    astronomical_hash : string;
    merkle_root : string;
    nonce : Z;
    hash : string }.

(** [Block.to_dict]. *)
Definition of_block (b : Block.t) : t :=
  mk (Block.index b) (Block.timestamp b) (Block.previous_hash b)
     (Block.transactions b) (Some (Block.astronomical_data b))
     (Block.astronomical_hash b) (Block.merkle_root b) (Block.nonce b)
     (Block.hash b).

(** The serialized form with its stored fingerprint overwritten. *)
Definition set_astronomical_hash (h : string) (d : t) : t :=
  mk (index d) (timestamp d) (previous_hash d) (transactions d)
     (astronomical_data d) h (merkle_root d) (nonce d) (hash d).

End BlockData.

(** ** The consensus gate *)

Module ProofOfAstronomy.

(** [block_interval] is a [timedelta], held in microseconds. *)
Record t := mk
  { block_interval : Z;
    last_block_time : option Datetime.t;
    difficulty_target : string;
    node_id : string }.

(** [ProofOfAstronomy(block_interval_minutes)]; [clock] is the reading
    of [time.time()].  [timedelta] raises [OverflowError] beyond
    999999999 days. *)
Definition init (block_interval_minutes : Z) (clock : spec_float)
  : option t :=
  let us := block_interval_minutes * 60000000 in
  if (Z.abs (us / 86400000000) <=? 999999999)
  then Some (mk us None "0000"
                (String.substring 0 16 (sha256_hex (PyFloat.repr clock))))
  else None.

Section Gate.

(** [datetime.fromisoformat]: the parsed value, or [None] when the
    call raises [ValueError]. *)
Variable fromisoformat : string -> option Datetime.t.

(** [is_time_for_new_block]; [now] is the reading of
    [datetime.utcnow()].  The bare [except] turns every failure of
    the [try] body into [True]. *)
Definition is_time_for_new_block (self : t) (now : Datetime.t)
    (last_block_timestamp : string) : bool :=
  if String.eqb last_block_timestamp "" then true
  else
    let attempt :=
      last_time ←
        fromisoformat
          (replace "+00:00" "" (replace "Z" "+00:00" last_block_timestamp));
      elapsed ← Datetime.sub now last_time;
      Some (block_interval self <=? elapsed) in
    match attempt with
    | Some answer => answer
    | None => true
    end.

(** The [iss] component, when the source is present.  An absent
    ["latitude"] or ["longitude"] key raises [KeyError]. *)
Definition iss_component (iss : Snapshot.Iss) : option string :=
  lat ← Snapshot.latitude iss ≫= Py.float;
  let lat_rounded := PyFloat.round lat 2 in
  lon ← Snapshot.longitude iss ≫= Py.float;
  let lon_rounded := PyFloat.round lon 2 in
  Some ("iss_" +++ PyFloat.repr lat_rounded +++ "_"
               +++ PyFloat.repr lon_rounded).

(** The [solar] component, when the source is present. *)
Definition solar_component (solar : Snapshot.Solar) : option string :=
  flux ← Snapshot.flux solar ≫= Py.float;
  let flux_rounded := PyFloat.round flux 4 in
  Some ("solar_" +++ PyFloat.repr flux_rounded).

(** The time component of a non-empty timestamp: the 10-minute
    bucket when the timestamp parses, the raw timestamp otherwise. *)
Definition time_component (timestamp : string) : string :=
  match fromisoformat (replace "Z" "" timestamp) with
  | Some dt =>
      let minutes_rounded := (Datetime.minute dt / 10) * 10 in
      let time_rounded := Datetime.replace_minute dt minutes_rounded in
      "time_" +++ Datetime.isoformat time_rounded
  | None => "time_" +++ timestamp
  end.

(** The list [consensus_components] at the end of
    [calculate_astronomical_consensus]. *)
Definition consensus_components (astronomical_data : Snapshot.t)
  : option (list string) :=
  let consensus_components := [] in
  let sources :=
    default (Snapshot.mkSources None None)
            (Snapshot.sources astronomical_data) in
  consensus_components ←
    match Snapshot.iss sources with
    | Some iss =>
        c ← iss_component iss; Some (consensus_components ++ [c])
    | None => Some consensus_components
    end;
  consensus_components ←
    match Snapshot.solar sources with
    | Some solar =>
        c ← solar_component solar; Some (consensus_components ++ [c])
    | None => Some consensus_components
    end;
  let timestamp :=
    Snapshot.get_or_empty (Snapshot.timestamp astronomical_data) in
  if String.eqb timestamp "" then Some consensus_components
  else Some (consensus_components ++ [time_component timestamp]).

(** [calculate_astronomical_consensus]. *)
Definition calculate_astronomical_consensus
    (astronomical_data : Snapshot.t) : option string :=
  consensus_components ← consensus_components astronomical_data;
  let consensus_string := join "_" consensus_components in
  Some (sha256_hex consensus_string).

(** [validate_astronomical_block]; [except Exception] turns every
    failure of the [try] body into [False]. *)
Definition validate_astronomical_block (self : t)
    (block_data : BlockData.t) : bool :=
  match BlockData.astronomical_data block_data with
  | None => false
  | Some astronomical_data =>
      match calculate_astronomical_consensus astronomical_data with
      | None => false
      | Some recalculated_consensus =>
          let claimed_hash :=
            Snapshot.get_or_empty
              (Snapshot.astronomical_hash astronomical_data) in
          if negb (String.eqb recalculated_consensus claimed_hash)
          then false
          else true
      end
  end.

End Gate.

(** [can_create_block]. *)
Definition can_create_block (self : t) (consensus_hash node_id : string)
  : bool :=
  let node_hash := sha256_hex (consensus_hash +++ "_" +++ node_id) in
  startswith node_hash (difficulty_target self).

(** The hash [find_valid_nonce] tests for one nonce. *)
Definition candidate_hash (self : t) (consensus_hash : string) (nonce : Z)
  : string :=
  sha256_hex (consensus_hash +++ "_" +++ node_id self +++ "_"
              +++ str_int nonce).

(** The test of the loop body:
    [candidate_hash.startswith(self.difficulty_target)]. *)
Definition admits (self : t) (consensus_hash : string) (nonce : Z) : bool :=
  startswith (candidate_hash self consensus_hash nonce)
             (difficulty_target self).

(** The [for nonce in range(max_attempts)] loop from [nonce] on, with
    [remaining] iterations left. *)
Fixpoint find_valid_nonce_from (self : t) (consensus_hash : string)
    (nonce : Z) (remaining : nat) : option Z :=
  match remaining with
  | O => None
  | S remaining' =>
      if admits self consensus_hash nonce
      then Some nonce
      else find_valid_nonce_from self consensus_hash (nonce + 1) remaining'
  end.

(** [find_valid_nonce]. *)
Definition find_valid_nonce (self : t) (consensus_hash : string)
    (max_attempts : Z) : option Z :=
  find_valid_nonce_from self consensus_hash 0 (Z.to_nat max_attempts).

End ProofOfAstronomy.

(** ** The Merkle fold as the specification words it *)

(** "If the current count is odd, duplicate the last element to make it
    even." *)
Definition spec_duplicate_last (hashes : list string) : list string :=
  match last hashes with
  | Some h => if Nat.odd (length hashes) then hashes ++ [h] else hashes
  | None => hashes
  end.

(** "Pairwise concatenate adjacent elements and hash each pair." *)
Fixpoint spec_hash_pairs (hashes : list string) : list string :=
  match hashes with
  | a :: b :: rest => sha256_hex (a +++ b) :: spec_hash_pairs rest
  | _ => []
  end.

(** "Repeat until exactly one hash remains." *)
Inductive merkle_folds : list string -> string -> Prop :=
| folds_done h : merkle_folds [h] h
| folds_pass hashes root :
    (2 <= length hashes)%nat ->
    merkle_folds (spec_hash_pairs (spec_duplicate_last hashes)) root ->
    merkle_folds hashes root.

(** ** Stored blocks and their mutation *)

(** What one iteration of [is_chain_valid] checks at index [i]. *)
Definition link_ok (chain : list Block.t) (i : nat) : Prop :=
  exists current_block previous_block,
    chain !! i = Some current_block
    /\ chain !! (i - 1)%nat = Some previous_block
    /\ Block.hash current_block = Block.calculate_hash current_block
    /\ Block.previous_hash current_block = Block.hash previous_block.

(** The ledger after the block stored at position [i] was overwritten in
    place ([ledger.chain[i] = b'], or any assignment to an attribute of
    [ledger.chain[i]]). *)
Definition with_block (i : nat) (b' : Block.t) (s : AstroBlockchain.t)
  : AstroBlockchain.t :=
  AstroBlockchain.mk (<[i := b']> (AstroBlockchain.chain s))
                     (AstroBlockchain.pending_transactions s).

(** ** Accounting over the stored transactions *)

(** Every transaction stored in the chain, in the order [get_balance]
    visits them. *)
Definition all_transactions (s : AstroBlockchain.t) : list Transaction.t :=
  flat_map Block.transactions (AstroBlockchain.chain s).

Definition is_int (x : number) : bool :=
  match x with Int _ => true | Float _ => false end.

(** All stored amounts are [int]s. *)
Definition integral (s : AstroBlockchain.t) : bool :=
  forallb (fun tx => is_int (Transaction.amount tx)) (all_transactions s).

Definition mentions (addresses : list string) (a : string) : bool :=
  existsb (String.eqb a) addresses.

(** Every stored transaction has its sender and its receiver among
    [addresses]. *)
Definition closed_over (addresses : list string) (s : AstroBlockchain.t)
  : bool :=
  forallb (fun tx => mentions addresses (Transaction.from_address tx)
                     && mentions addresses (Transaction.to_address tx))
          (all_transactions s).

Definition int_amount (tx : Transaction.t) : Z :=
  match Transaction.amount tx with Int z => z | Float _ => 0 end.

(** What one stored transaction adds to the balance of [address]. *)
Definition delta (address : string) (tx : Transaction.t) : Z :=
  (if String.eqb (Transaction.to_address tx) address then int_amount tx else 0)
  - (if String.eqb (Transaction.from_address tx) address then int_amount tx else 0).

Fixpoint zsum {A : Type} (f : A -> Z) (l : list A) : Z :=
  match l with
  | [] => 0
  | x :: l' => f x + zsum f l'
  end.

(** ** Rounding cells and time buckets *)

(** [x] has sign [s] and lies strictly within half a unit of the
    [ndigits]-th decimal place of [k / 10 ^ ndigits]: for [ndigits = 2],
    strictly within 0.005 of [k / 100]. *)
Definition in_cell (ndigits : Z) (s : bool) (k : Z) (x : spec_float) : Prop :=
  match x with
  | S754_finite s' m e =>
      s' = s
      /\ (Qabs (PyFloat.magnitude m e * Qpower 10 ndigits - inject_Z k) < 1 # 2)%Q
  | S754_zero s' => s' = s /\ k = 0
  | _ => False
  end.

(** Two readings whose [float] values share a cell. *)
Definition close_reading (ndigits : Z) (r r' : option number) : Prop :=
  exists x x' s k,
    r ≫= Py.float = Some x /\ r' ≫= Py.float = Some x'
    /\ in_cell ndigits s k x /\ in_cell ndigits s k x'.

Definition close_iss (i i' : Snapshot.Iss) : Prop :=
  close_reading 2 (Snapshot.latitude i) (Snapshot.latitude i')
  /\ close_reading 2 (Snapshot.longitude i) (Snapshot.longitude i').

Definition close_solar (o o' : Snapshot.Solar) : Prop :=
  close_reading 4 (Snapshot.flux o) (Snapshot.flux o').

Definition close_sources (a a' : Snapshot.Sources) : Prop :=
  option_Forall2 close_iss (Snapshot.iss a) (Snapshot.iss a')
  /\ option_Forall2 close_solar (Snapshot.solar a) (Snapshot.solar a').

(** Two instants of the same 10-minute bucket: same date, hour and UTC
    offset, same tens of minutes. *)
Definition same_bucket (dt dt' : Datetime.t) : Prop :=
  Datetime.year dt = Datetime.year dt'
  /\ Datetime.month dt = Datetime.month dt'
  /\ Datetime.day dt = Datetime.day dt'
  /\ Datetime.hour dt = Datetime.hour dt'
  /\ Datetime.tzinfo dt = Datetime.tzinfo dt'
  /\ Datetime.minute dt / 10 = Datetime.minute dt' / 10.

(** Two timestamps that are equal, or that both parse, into the same
    bucket. *)
Definition close_timestamp (fromisoformat : string -> option Datetime.t)
    (t t' : option string) : Prop :=
  t = t'
  \/ exists ts ts' dt dt',
       t = Some ts /\ t' = Some ts' /\ ts <> "" /\ ts' <> ""
       /\ fromisoformat (replace "Z" "" ts) = Some dt
       /\ fromisoformat (replace "Z" "" ts') = Some dt'
       /\ same_bucket dt dt'.

(** A snapshot and a perturbed copy of it. *)
Definition close_snapshot (fromisoformat : string -> option Datetime.t)
    (a a' : Snapshot.t) : Prop :=
  option_Forall2 close_sources (Snapshot.sources a) (Snapshot.sources a')
  /\ close_timestamp fromisoformat (Snapshot.timestamp a) (Snapshot.timestamp a').

(** ** Concrete data for the examples *)

Definition ledger_clock : Datetime.t :=
  Datetime.mk 2024 1 2 3 4 5 678 None.

Definition empty_snapshot : Snapshot.t := Snapshot.mk None None None None.

Definition genesis_block : Block.t :=
  Block.init ledger_clock 0 [] "0" AstroBlockchain.genesis_astronomical_data.

(** A payment of 50 from alice to bob, and the same record with its
    amount overwritten. *)
Definition payment (amount : number) : Transaction.t :=
  Transaction.mk "alice" "bob" amount "2024-01-02T03:04:01.000250" []
    (sha256_hex ("alicebob50" +++ "2024-01-02T03:04:01.000250" +++ "{}")).

Definition paid_block (amount : number) : Block.t :=
  let b := Block.init ledger_clock 1 [payment (Int 50)]
                      (Block.hash genesis_block) empty_snapshot in
  Block.mk (Block.index b) (Block.timestamp b) [payment amount]
           (Block.previous_hash b) (Block.astronomical_data b)
           (Block.astronomical_hash b) (Block.merkle_root b)
           (Block.nonce b) (Block.hash b).

(** The ledger after [txs] were added and one block was created. *)
Definition ledger_of (txs : list Transaction.t) : AstroBlockchain.t :=
  AstroBlockchain.mk
    [genesis_block;
     Block.init ledger_clock 1 txs (Block.hash genesis_block) empty_snapshot]
    [].

Definition paid_ledger : AstroBlockchain.t := ledger_of [payment (Int 50)].

(** The scenario of three transfers in one block. *)
Definition transfer (from to : string) (amount : number) : Transaction.t :=
  Transaction.mk from to amount "2024-01-02T03:04:01.000250" []
    (sha256_hex (from +++ to)).

Definition scenario_ledger : AstroBlockchain.t :=
  ledger_of [transfer "alice" "bob" (Int 100);
             transfer "bob" "charlie" (Int 50);
             transfer "charlie" "alice" (Int 25)].

(** Two transfers of 0.1 and 0.2 as [float]s. *)
Definition tenth : spec_float := PyFloat.of_decimal false 1 (-1).
Definition fifth : spec_float := PyFloat.of_decimal false 2 (-1).

Definition float_ledger : AstroBlockchain.t :=
  ledger_of [transfer "alice" "bob" (Float tenth);
             transfer "alice" "charlie" (Float fifth)].

(** A gate with the difficulty of the source and a fixed identity. *)
Definition demo_gate : ProofOfAstronomy.t :=
  ProofOfAstronomy.mk 600000000 None "0000" "be249c040d6e4255".

(** The readings of the source's own test data, with a latitude to
    choose. *)
Definition observed_at (latitude flux : spec_float) (timestamp : option string)
    (fingerprint : option string) : Snapshot.t :=
  Snapshot.mk None timestamp
    (Some (Snapshot.mkSources
             (Some (Snapshot.mkIss
                      (Some (Float latitude))
                      (Some (Float (PyFloat.of_decimal false 17377 (-2))))))
             (Some (Snapshot.mkSolar (Some (Float flux))))))
    fingerprint.

Definition observed (latitude : spec_float) (timestamp : option string)
    (fingerprint : option string) : Snapshot.t :=
  observed_at latitude (PyFloat.of_decimal false 1826 (-4)) timestamp fingerprint.

Definition latitude_36_39 : spec_float := PyFloat.of_decimal false 3639 (-2).

(** A snapshot that carries its own fingerprint, as the demo stores it
    under ["astronomical_hash"] before creating the block. *)
Definition anchored_snapshot : Snapshot.t :=
  let snapshot := observed latitude_36_39 (Some "2024-01-02T03:04:05.123") None in
  observed latitude_36_39 (Some "2024-01-02T03:04:05.123")
    (ProofOfAstronomy.calculate_astronomical_consensus Iso.fromisoformat snapshot).

Definition anchored_block : Block.t :=
  Block.init ledger_clock 1 [] (Block.hash genesis_block) anchored_snapshot.

(** Its serialized form after the stored fingerprint was edited by hand;
    the snapshot is untouched. *)
Definition edited_block_data : BlockData.t :=
  BlockData.set_astronomical_hash
    "ffffffffffffffffffffffffffffffffffffffffffffffffffffffffffffffff"
    (BlockData.of_block anchored_block).

(** ** Runs of the ledger *)

(** A call on a ledger: [add_transaction(tx)] or
    [create_block(snapshot)], the latter with the reading of the clock it
    takes. *)
Inductive op :=
| Add (tx : Transaction.t)
| Create (now : Datetime.t) (snapshot : Snapshot.t).

Definition step (s : AstroBlockchain.t) (o : op) : option AstroBlockchain.t :=
  match o with
  | Add tx => Some (AstroBlockchain.add_transaction tx s)
  | Create now snapshot => snd <$> AstroBlockchain.create_block now snapshot s
  end.

(** The ledger after [AstroBlockchain()] at [now0] and the calls [ops]
    in order; [None] if a call raises. *)
Definition run (now0 : Datetime.t) (ops : list op) : option AstroBlockchain.t :=
  AstroBlockchain.foldM step ops (AstroBlockchain.init now0).

(** The transactions handed to [add_transaction], in call order. *)
Definition added (ops : list op) : list Transaction.t :=
  flat_map (fun o => match o with Add tx => [tx] | Create _ _ => [] end) ops.

(** The number of [create_block] calls. *)
Fixpoint created (ops : list op) : nat :=
  match ops with
  | [] => 0
  | Add _ :: ops' => created ops'
  | Create _ _ :: ops' => S (created ops')
  end.

(** The transactions added after the last [create_block] call. *)
Fixpoint added_since_create (ops : list op) (pending : list Transaction.t)
  : list Transaction.t :=
  match ops with
  | [] => pending
  | Add tx :: ops' => added_since_create ops' (pending ++ [tx])
  | Create _ _ :: ops' => added_since_create ops' []
  end.

(** The [dict] that [get_chain_info] returns. *)
Module ChainInfo.

Record t := mk
  { length : Z;
    latest_block : BlockData.t;
    pending_transactions : Z;
    is_valid : bool }.

End ChainInfo.

(** [AstroBlockchain.get_chain_info]; [get_latest_block] raises on an
    empty chain. *)
Definition get_chain_info (self : AstroBlockchain.t) : option ChainInfo.t :=
  let length := Z.of_nat (length (AstroBlockchain.chain self)) in
  latest ← AstroBlockchain.get_latest_block self;
  let latest_block := BlockData.of_block latest in
  let pending_transactions :=
    Z.of_nat (List.length (AstroBlockchain.pending_transactions self)) in
  let is_valid := AstroBlockchain.is_chain_valid self in
  Some (ChainInfo.mk length latest_block pending_transactions is_valid).

(** [snapshot["astronomical_hash"] = consensus_hash], as the demo stamps
    a snapshot before it creates the block. *)
Definition stamp (consensus_hash : string) (snapshot : Snapshot.t) : Snapshot.t :=
  Snapshot.mk (Snapshot.type snapshot) (Snapshot.timestamp snapshot)
              (Snapshot.sources snapshot) (Some consensus_hash).

(** Every stored amount is a [float]. *)
Definition all_floats (s : AstroBlockchain.t) : bool :=
  forallb (fun tx => negb (is_int (Transaction.amount tx))) (all_transactions s).

(** No stored transaction names [address] as sender or receiver. *)
Definition unmentioned (address : string) (s : AstroBlockchain.t) : bool :=
  forallb (fun tx => negb (String.eqb (Transaction.from_address tx) address)
                     && negb (String.eqb (Transaction.to_address tx) address))
          (all_transactions s).

(** [c in s] for a character [c]. *)
Fixpoint contains_char (c : ascii) (s : string) : bool :=
  match s with
  | EmptyString => false
  | String c' s' => Ascii.eqb c c' || contains_char c s'
  end.


(** ** [json.dumps(data, sort_keys=True)] for a [dict] of strings *)

Module Json.

(** The double quote character. *)
Definition quote : ascii := ascii_of_nat 34.

(** The code points of a string, read from its UTF-8 encoding: [need]
    continuation bytes are still to come for the code point whose high
    bits are [acc]. *)
Fixpoint code_points_from (need : nat) (acc : Z) (bytes : list Z) : list Z :=
  match bytes with
  | [] => []
  | b :: rest =>
      match need with
      | O =>
          if b <? 128 then b :: code_points_from 0 0 rest
          else if b <? 224 then code_points_from 1 (Z.land b 31) rest
          else if b <? 240 then code_points_from 2 (Z.land b 15) rest
          else code_points_from 3 (Z.land b 7) rest
      | S k =>
          let acc' := Z.lor (Z.shiftl acc 6) (Z.land b 63) in
          match k with
          | O => acc' :: code_points_from 0 0 rest
          | S _ => code_points_from k acc' rest
          end
      end
  end.

Definition code_points (s : string) : list Z :=
  code_points_from 0 0 (Sha256.bytes_of_string s).

(** ['\\u{0:04x}'.format(n)]. *)
Definition u_escape (n : Z) : string :=
  "\u" +++ fold_right (fun i acc =>
                         String (Sha256.hex_digit
                                   (Z.land (Z.shiftr n (4 * Z.of_nat i)) 15)) acc)
                      EmptyString [3; 2; 1; 0]%nat.

(** The replacement of one code point in [ensure_ascii] mode. *)
Definition escape (cp : Z) : string :=
  if cp =? 34 then String "\" (String quote "")
  else if cp =? 92 then "\\"
  else if cp =? 10 then "\n"
  else if cp =? 13 then "\r"
  else if cp =? 9 then "\t"
  else if cp =? 8 then "\b"
  else if cp =? 12 then "\f"
  else if (32 <=? cp) && (cp <=? 126)
  then String (ascii_of_nat (Z.to_nat cp)) ""
  else if cp <? 65536 then u_escape cp
  else
    let n := cp - 65536 in
    u_escape (Z.lor 55296 (Z.land (Z.shiftr n 10) 1023))
    +++ u_escape (Z.lor 56320 (Z.land n 1023)).

(** A string as a JSON string literal. *)
Definition encode_string (s : string) : string :=
  String quote (String.concat "" (map escape (code_points s)))
  +++ String quote "".

(** Insertion of an item into a list sorted by key. *)
Fixpoint insert_item (item : string * string) (items : list (string * string))
  : list (string * string) :=
  match items with
  | [] => [item]
  | x :: rest =>
      if String.leb (fst item) (fst x) then item :: x :: rest
      else x :: insert_item item rest
  end.

(** [sorted(data.items())], for keys that are pairwise distinct. *)
Fixpoint sort_items (items : list (string * string)) : list (string * string) :=
  match items with
  | [] => []
  | x :: rest => insert_item x (sort_items rest)
  end.

(** [json.dumps(data, sort_keys=True)]. *)
Definition dumps (data : list (string * string)) : string :=
  "{" +++ join ", " (map (fun item => encode_string (fst item) +++ ": "
                                      +++ encode_string (snd item))
                         (sort_items data))
  +++ "}".

End Json.

(** ** Construction and hash of a transaction *)

(** [str(x)] for a number, as an f-string renders it. *)
Definition str_number (x : number) : string :=
  match x with
  | Int z => str_int z
  | Float f => PyFloat.repr f
  end.

Module TransactionOps.

(** [Transaction.calculate_hash]: the f-string of five attributes,
    hashed. *)
Definition calculate_hash (tx : Transaction.t) : string :=
  let tx_string :=
    Transaction.from_address tx +++ Transaction.to_address tx
    +++ str_number (Transaction.amount tx) +++ Transaction.timestamp tx
    +++ Json.dumps (Transaction.data tx) in
  sha256_hex tx_string.

(** [Transaction(from_address, to_address, amount, data)]; [now] is the
    reading of [datetime.utcnow()], and [data] is [None] when the
    argument is left out. *)
Definition init (now : Datetime.t) (from_address to_address : string)
    (amount : number) (data : option (list (string * string)))
  : Transaction.t :=
  let tx := Transaction.mk from_address to_address amount
              (Datetime.isoformat now) (default [] data) "" in
  Transaction.mk (Transaction.from_address tx) (Transaction.to_address tx)
                 (Transaction.amount tx) (Transaction.timestamp tx)
                 (Transaction.data tx) (calculate_hash tx).

End TransactionOps.

(** A stored block with the first [String.length x] characters of its
    fingerprint moved to the end of its Merkle root: [rest] is what is
    left of the fingerprint. *)
Definition shift_boundary (x rest : string) (b : Block.t) : Block.t :=
  Block.mk (Block.index b) (Block.timestamp b) (Block.transactions b)
           (Block.previous_hash b) (Block.astronomical_data b)
           rest (Block.merkle_root b +++ x) (Block.nonce b) (Block.hash b).

(** ** Credits and debits of an address *)

(** The sum of the [int] amounts stored with [address] as receiver. *)
Definition received (address : string) (s : AstroBlockchain.t) : Z :=
  zsum (fun tx => if String.eqb (Transaction.to_address tx) address
                  then int_amount tx else 0)
       (all_transactions s).

(** The sum of the [int] amounts stored with [address] as sender. *)
Definition sent (address : string) (s : AstroBlockchain.t) : Z :=
  zsum (fun tx => if String.eqb (Transaction.from_address tx) address
                  then int_amount tx else 0)
       (all_transactions s).

(** ** The demo: [AstroChainDemo] in [astrochain_demo.py] *)

(** Console output is left out; the snapshot that the data fetcher
    returns and the readings of the clock are arguments. *)
Module AstroChainDemo.

(** The mock snapshot used when no source could be fetched. *)
Definition mock_snapshot (now : Datetime.t) : Snapshot.t :=
  Snapshot.mk None (Some (Datetime.isoformat now))
    (Some (Snapshot.mkSources
             (Some (Snapshot.mkIss
                      (Some (Float (PyFloat.of_decimal false 45123 (-3))))
                      (Some (Float (PyFloat.of_decimal true 123456 (-3))))))
             (Some (Snapshot.mkSolar
                      (Some (Float (PyFloat.of_decimal false 2345 (-4))))))))
    None.

(** [not snapshot["sources"]]: the [dict] of sources is empty. *)
Definition no_sources (sources : Snapshot.Sources) : bool :=
  match Snapshot.iss sources, Snapshot.solar sources with
  | None, None => true
  | _, _ => false
  end.

(** [demonstrate_astronomical_consensus]: the stamped snapshot and the
    flag [can_create].  [if nonce:] is false on [None] and on [0]. *)
Definition demonstrate_astronomical_consensus
    (fromisoformat : string -> option Datetime.t)
    (consensus : ProofOfAstronomy.t) (now : Datetime.t)
    (fetched : Snapshot.t) : option (Snapshot.t * bool) :=
  sources ← Snapshot.sources fetched;
  let astronomical_snapshot :=
    if no_sources sources then mock_snapshot now else fetched in
  consensus_hash ←
    ProofOfAstronomy.calculate_astronomical_consensus fromisoformat
      astronomical_snapshot;
  let astronomical_snapshot := stamp consensus_hash astronomical_snapshot in
  let can_create :=
    ProofOfAstronomy.can_create_block consensus consensus_hash
      (ProofOfAstronomy.node_id consensus) in
  let can_create :=
    if negb can_create then
      match ProofOfAstronomy.find_valid_nonce consensus consensus_hash 100000 with
      | Some nonce => if negb (nonce =? 0) then true else can_create
      | None => can_create
      end
    else can_create in
  Some (astronomical_snapshot, can_create).

(** [demonstrate_validation]. *)
Definition demonstrate_validation
    (fromisoformat : string -> option Datetime.t)
    (consensus : ProofOfAstronomy.t) (blockchain : AstroBlockchain.t)
    (block : Block.t) : bool :=
  let is_valid_astronomical :=
    ProofOfAstronomy.validate_astronomical_block fromisoformat consensus
      (BlockData.of_block block) in
  let is_valid_chain := AstroBlockchain.is_chain_valid blockchain in
  is_valid_astronomical && is_valid_chain.

(** [demonstrate_transaction_flow]: the three transactions and the
    ledger with them pending; [t1], [t2] and [t3] are the clock readings
    of the three constructors. *)
Definition demonstrate_transaction_flow (t1 t2 t3 : Datetime.t)
    (blockchain : AstroBlockchain.t)
  : list Transaction.t * AstroBlockchain.t :=
  let tx1 :=
    TransactionOps.init t1 "astro_alice" "astro_bob"
      (Float (PyFloat.of_decimal false 100 0))
      (Some [("memo", "First AstroChain payment!")]) in
  let tx2 :=
    TransactionOps.init t2 "astro_bob" "astro_charlie"
      (Float (PyFloat.of_decimal false 50 0))
      (Some [("memo", "Cosmic transfer")]) in
  let tx3 :=
    TransactionOps.init t3 "astro_charlie" "astro_alice"
      (Float (PyFloat.of_decimal false 25 0)) None in
  let blockchain := AstroBlockchain.add_transaction tx1 blockchain in
  let blockchain := AstroBlockchain.add_transaction tx2 blockchain in
  let blockchain := AstroBlockchain.add_transaction tx3 blockchain in
  ([tx1; tx2; tx3], blockchain).

(** [demonstrate_block_creation]; [now] is the clock reading of the
    block constructor. *)
Definition demonstrate_block_creation (now : Datetime.t)
    (astronomical_data : Snapshot.t) (blockchain : AstroBlockchain.t)
  : option (Block.t * AstroBlockchain.t) :=
  AstroBlockchain.create_block now astronomical_data blockchain.

(** [show_final_state]: the chain info, after the three balances and
    the latest block were read for printing. *)
Definition show_final_state (blockchain : AstroBlockchain.t)
  : option ChainInfo.t :=
  chain_info ← get_chain_info blockchain;
  let addresses := ["astro_alice"; "astro_bob"; "astro_charlie"] in
  _ ← mapM (AstroBlockchain.get_balance blockchain) addresses;
  _ ← AstroBlockchain.get_latest_block blockchain;
  Some chain_info.

(** [run_full_demo]: the returned flag and the ledger it leaves.  The
    [except] turns every failure of the [try] body into [False];
    [t_mock] and [t_block] are the clock readings of the mock snapshot
    and of the block constructor, [fetched] is what
    [get_astronomical_snapshot] returned. *)
Definition run_full_demo (fromisoformat : string -> option Datetime.t)
    (consensus : ProofOfAstronomy.t) (t1 t2 t3 t_mock t_block : Datetime.t)
    (fetched : Snapshot.t) (blockchain : AstroBlockchain.t)
  : bool * AstroBlockchain.t :=
  let '(transactions, blockchain) :=
    demonstrate_transaction_flow t1 t2 t3 blockchain in
  match demonstrate_astronomical_consensus fromisoformat consensus t_mock
          fetched with
  | None => (false, blockchain)
  | Some (astronomical_data, can_create) =>
      let created :=
        if can_create then
          '(new_block, blockchain) ←
            demonstrate_block_creation t_block astronomical_data blockchain;
          let is_valid :=
            demonstrate_validation fromisoformat consensus blockchain new_block in
          Some blockchain
        else Some blockchain in
      match created with
      | None => (false, blockchain)
      | Some blockchain =>
          match show_final_state blockchain with
          | Some final_state => (true, blockchain)
          | None => (false, blockchain)
          end
      end
  end.

End AstroChainDemo.

(** A gate of difficulty ["0"] whose own hash does not admit the
    fingerprint of the anchored snapshot, while its nonce 0 does. *)
Definition zero_nonce_gate : ProofOfAstronomy.t :=
  ProofOfAstronomy.mk 60000000 None "0" "node030".

(** ** Decimal fields of a timestamp *)

(** The number a run of decimal digits spells after [acc]. *)
Fixpoint uint_value (d : Decimal.uint) (acc : Z) : Z :=
  match d with
  | Decimal.Nil => acc
  | Decimal.D0 l => uint_value l (10 * acc + 0)
  | Decimal.D1 l => uint_value l (10 * acc + 1)
  | Decimal.D2 l => uint_value l (10 * acc + 2)
  | Decimal.D3 l => uint_value l (10 * acc + 3)
  | Decimal.D4 l => uint_value l (10 * acc + 4)
  | Decimal.D5 l => uint_value l (10 * acc + 5)
  | Decimal.D6 l => uint_value l (10 * acc + 6)
  | Decimal.D7 l => uint_value l (10 * acc + 7)
  | Decimal.D8 l => uint_value l (10 * acc + 8)
  | Decimal.D9 l => uint_value l (10 * acc + 9)
  end.

(** What [datetime.utcnow()] returns: a date and time of the calendar,
    between the years 1 and 9999, without a UTC offset. *)
Definition valid_naive (dt : Datetime.t) : bool :=
  (1 <=? Datetime.year dt) && (Datetime.year dt <=? 9999)
  && (1 <=? Datetime.month dt) && (Datetime.month dt <=? 12)
  && (1 <=? Datetime.day dt)
  && (Datetime.day dt <=? Iso.days_in_month (Datetime.year dt) (Datetime.month dt))
  && (0 <=? Datetime.hour dt) && (Datetime.hour dt <? 24)
  && (0 <=? Datetime.minute dt) && (Datetime.minute dt <? 60)
  && (0 <=? Datetime.second dt) && (Datetime.second dt <? 60)
  && (0 <=? Datetime.microsecond dt) && (Datetime.microsecond dt <? 1000000)
  && match Datetime.tzinfo dt with None => true | Some _ => false end.

(** The endpoints and the amount of a transaction. *)
Definition transfer_of (tx : Transaction.t) : string * string * number :=
  (Transaction.from_address tx, Transaction.to_address tx, Transaction.amount tx).
Example sha256_empty :
  sha256_hex "" = "e3b0c44298fc1c149afbf4c8996fb92427ae41e4649b934ca495991b7852b855".
Proof. vm_compute. reflexivity. Qed.

Example sha256_abc :
  sha256_hex "abc" = "ba7816bf8f01cfea414140de5dae2223b00361a396177a9cb410ff61f20015ad".
Proof. vm_compute. reflexivity. Qed.

Example sha256_two_blocks :
  sha256_hex "abcdbcdecdefdefgefghfghighijhijkijkljklmklmnlmnomnopnopq"
  = "248d6a61d20638b8e5c026930c3e6039a33ce45964ff2167f6ecedd419db06c1".
Proof. vm_compute. reflexivity. Qed.

(** * Properties *)

(** ** Merkle root *)

Section MerkleRoot.

Import Block.

Lemma range_step2_even (k : nat) :
  range_step2 (2 * k) = map (fun j => (2 * j)%nat) (seq 0 k).
Proof.
  unfold range_step2. f_equal. f_equal.
  symmetry. apply (Nat.div_unique _ _ _ 1%nat); lia.
Qed.

(** Reading the list by index, two by two, is pairing it up. *)
Lemma indexed_pairs (k : nat) : forall l : list string,
  length l = (2 * k)%nat ->
  map (fun i => sha256_hex (nth i l "" +++ nth (i + 1) l ""))
      (map (fun j => (2 * j)%nat) (seq 0 k))
  = spec_hash_pairs l.
Proof.
  induction k as [|k IH]; intros l Hl.
  - destruct l; [reflexivity | discriminate].
  - destruct l as [|a [|b rest]]; try (simpl in Hl; lia).
    cbn [seq map spec_hash_pairs]. f_equal.
    rewrite <- (IH rest) by (simpl in Hl; lia).
    rewrite <- seq_shift, !map_map. apply map_ext. intros j.
    replace (2 * S j)%nat with (S (S (2 * j))) by lia.
    reflexivity.
Qed.

Lemma duplicate_last_spec (l : list string) :
  duplicate_last l = spec_duplicate_last l.
Proof.
  unfold duplicate_last, spec_duplicate_last.
  destruct l as [|x l] using rev_ind; [reflexivity|].
  rewrite last_snoc, List.last_last.
  rewrite <- Nat.bit0_eqb, Nat.bit0_odd. reflexivity.
Qed.

Lemma spec_duplicate_last_even (l : list string) :
  exists k, length (spec_duplicate_last l) = (2 * k)%nat.
Proof.
  unfold spec_duplicate_last.
  destruct (last l) eqn:L.
  - destruct (Nat.odd (length l)) eqn:O.
    + apply Nat.odd_spec in O. destruct O as [m Hm].
      exists (S m). rewrite length_app. simpl. lia.
    + apply (f_equal negb) in O. rewrite Nat.negb_odd in O.
      apply Nat.even_spec in O. exact O.
  - apply last_None in L. subst l. exists 0%nat. reflexivity.
Qed.

(** One pass of the source loop is one pass of the specification. *)
Lemma merkle_pass_spec (l : list string) :
  merkle_pass l = spec_hash_pairs (spec_duplicate_last l).
Proof.
  unfold merkle_pass. rewrite duplicate_last_spec.
  destruct (spec_duplicate_last_even l) as [k Hk].
  rewrite Hk, range_step2_even. apply indexed_pairs, Hk.
Qed.

Lemma merkle_loop_folds (l : list string) :
  l <> [] -> merkle_folds l (nth 0 (merkle_loop l) "").
Proof.
  funelim (merkle_loop l); intros Hne.
  - destruct tx_hashes as [|h [|h' t]]; [congruence | | simpl in *; lia].
    constructor.
  - apply folds_pass; [lia|].
    rewrite <- merkle_pass_spec.
    apply H. intros E.
    rewrite merkle_pass_spec in E.
    destruct tx_hashes as [|a [|b t]]; simpl in *; try lia.
    unfold spec_duplicate_last in E.
    destruct (last (a :: b :: t)); [|discriminate].
    destruct (Nat.odd _); discriminate.
Qed.

End MerkleRoot.

(** C2. [calculate_merkle_root] returns the hash of the empty string on
    an empty transaction list, the transaction's own hash on a list of
    one, and otherwise the result of folding the ordered transaction
    hashes pairwise, the last hash duplicated whenever the count is odd,
    until one hash remains. *)
Theorem C2_merkle_root :
  Block.calculate_merkle_root_of [] = sha256_hex ""
  /\ (forall tx, Block.calculate_merkle_root_of [tx] = Transaction.tx_hash tx)
  /\ (forall tx txs,
        merkle_folds (map Transaction.tx_hash (tx :: txs))
                     (Block.calculate_merkle_root_of (tx :: txs))).
Proof.
  split; [reflexivity|]. split.
  - intros tx. reflexivity.
  - intros tx txs. unfold Block.calculate_merkle_root_of.
    apply merkle_loop_folds. discriminate.
Qed.

(** The fold determines the root. *)
Lemma merkle_folds_functional (l : list string) (r1 r2 : string) :
  merkle_folds l r1 -> merkle_folds l r2 -> r1 = r2.
Proof.
  intros H1. revert r2.
  induction H1 as [h | l r1 Hlen _ IH]; intros r2 H2.
  - inversion H2; subst; [reflexivity | simpl in *; lia].
  - inversion H2; subst; [simpl in *; lia | auto].
Qed.

(** ** Ledger operations *)

Section Ledger.

Import AstroBlockchain.

Lemma init_chain now :
  chain (init now) = [Block.init now 0 [] "0" genesis_astronomical_data].
Proof. reflexivity. Qed.

Lemma get_latest_block_some (s : t) :
  chain s <> [] -> exists latest, get_latest_block s = Some latest.
Proof.
  unfold get_latest_block. intros Hne.
  destruct (last (chain s)) as [b|] eqn:E; [eauto|].
  apply last_None in E. contradiction.
Qed.

Lemma create_block_some now snapshot (s : t) latest :
  get_latest_block s = Some latest ->
  create_block now snapshot s
  = Some (Block.init now (Z.of_nat (length (chain s)))
                     (pending_transactions s) (Block.hash latest) snapshot,
          mk (chain s ++ [Block.init now (Z.of_nat (length (chain s)))
                            (pending_transactions s) (Block.hash latest)
                            snapshot]) []).
Proof. intros E. unfold create_block. rewrite E. reflexivity. Qed.

Lemma create_block_inv now snapshot (s s' : t) b :
  create_block now snapshot s = Some (b, s') ->
  exists latest,
    get_latest_block s = Some latest
    /\ b = Block.init now (Z.of_nat (length (chain s)))
                      (pending_transactions s) (Block.hash latest) snapshot
    /\ s' = mk (chain s ++ [b]) [].
Proof.
  unfold create_block. intros H.
  destruct (get_latest_block s) as [latest|] eqn:E; [|discriminate].
  simpl in H. injection H as <- <-. eauto.
Qed.

(** The genesis block never leaves the chain. *)
Lemma reachable_nonempty (s : t) : reachable s -> chain s <> [].
Proof.
  induction 1 as [now | tx s _ IH | now snapshot s b s' _ IH Hc].
  - discriminate.
  - exact IH.
  - apply create_block_inv in Hc as (latest & _ & _ & ->). simpl.
    intros E. apply app_eq_nil in E as [_ E]. discriminate.
Qed.

End Ledger.

(** C3. On a ledger whose chain is not empty (every reachable ledger,
    [reachable_nonempty]), [create_block] returns a block whose index is
    the chain length before the call and whose previous hash is the hash
    of the block that was the latest; the block holds exactly the
    transactions that were pending, in order; afterwards the pool is
    empty and the chain is the old chain followed by that block. *)
Theorem C3_create_block now snapshot (s : AstroBlockchain.t) :
  AstroBlockchain.chain s <> [] ->
  exists b s' latest,
    AstroBlockchain.create_block now snapshot s = Some (b, s')
    /\ AstroBlockchain.get_latest_block s = Some latest
    /\ Block.index b = Z.of_nat (length (AstroBlockchain.chain s))
    /\ Block.previous_hash b = Block.hash latest
    /\ Block.transactions b = AstroBlockchain.pending_transactions s
    /\ AstroBlockchain.pending_transactions s' = []
    /\ AstroBlockchain.chain s' = AstroBlockchain.chain s ++ [b]
    /\ AstroBlockchain.get_latest_block s' = Some b.
Proof.
  intros Hne.
  destruct (get_latest_block_some s Hne) as [latest Hl].
  eexists _, _, latest. split; [apply create_block_some, Hl|].
  repeat split; try reflexivity; try assumption.
  unfold AstroBlockchain.get_latest_block. simpl. apply last_snoc.
Qed.

Lemma C3_create_block_witness :
  exists b s' latest,
    AstroBlockchain.create_block ledger_clock empty_snapshot
      (AstroBlockchain.init ledger_clock) = Some (b, s')
    /\ AstroBlockchain.get_latest_block (AstroBlockchain.init ledger_clock)
       = Some latest
    /\ Block.index b
       = Z.of_nat (length (AstroBlockchain.chain (AstroBlockchain.init ledger_clock)))
    /\ Block.previous_hash b = Block.hash latest
    /\ Block.transactions b
       = AstroBlockchain.pending_transactions (AstroBlockchain.init ledger_clock)
    /\ AstroBlockchain.pending_transactions s' = []
    /\ AstroBlockchain.chain s'
       = AstroBlockchain.chain (AstroBlockchain.init ledger_clock) ++ [b]
    /\ AstroBlockchain.get_latest_block s' = Some b.
Proof.
  apply (C3_create_block ledger_clock empty_snapshot
           (AstroBlockchain.init ledger_clock)).
  discriminate.
Defined.

(** A new ledger holds the genesis block alone: it is valid, its latest
    block has index 0 and its pool is empty. *)
Example genesis_only :
  AstroBlockchain.is_chain_valid (AstroBlockchain.init ledger_clock) = true
  /\ Block.index <$> AstroBlockchain.get_latest_block
                       (AstroBlockchain.init ledger_clock) = Some 0
  /\ AstroBlockchain.pending_transactions (AstroBlockchain.init ledger_clock)
     = [].
Proof. vm_compute. auto. Qed.

(** ** Chain validation *)

Section ChainValid.

Import AstroBlockchain.

Lemma is_chain_valid_loop_spec (chain : list Block.t) (indices : list nat) :
  is_chain_valid_loop chain indices = true
  <-> forall i, In i indices -> link_ok chain i.
Proof.
  induction indices as [|i rest IH]; simpl.
  - split; [intros _ i [] | reflexivity].
  - destruct (chain !! i) as [cur|] eqn:Ec;
      [destruct (chain !! (i - 1)%nat) as [prev|] eqn:Ep|].
    + destruct (String.eqb_spec (Block.hash cur) (Block.calculate_hash cur))
        as [Eh|Eh]; simpl;
        [destruct (String.eqb_spec (Block.previous_hash cur) (Block.hash prev))
           as [El|El]; simpl|].
      * rewrite IH. split.
        -- intros H j [<-|Hj]; [|auto]. exists cur, prev. auto.
        -- intros H j Hj. apply H. auto.
      * split; [discriminate|]. intros H.
        destruct (H i (or_introl eq_refl)) as (c & p & Hc & Hp & _ & Hl).
        congruence.
      * split; [discriminate|]. intros H.
        destruct (H i (or_introl eq_refl)) as (c & p & Hc & _ & Hh & _).
        congruence.
    + split; [discriminate|]. intros H.
      destruct (H i (or_introl eq_refl)) as (c & p & _ & Hp & _).
      congruence.
    + split; [discriminate|]. intros H.
      destruct (H i (or_introl eq_refl)) as (c & p & Hc & _).
      congruence.
Qed.

Lemma is_chain_valid_spec (s : t) :
  is_chain_valid s = true
  <-> forall i, (1 <= i < length (chain s))%nat -> link_ok (chain s) i.
Proof.
  unfold is_chain_valid. rewrite is_chain_valid_loop_spec.
  split; intros H i Hi; apply H.
  - apply in_seq. lia.
  - apply in_seq in Hi. lia.
Qed.

(** A block leaves its constructor with a fresh hash. *)
Lemma init_hash_fresh now index txs prev snapshot :
  Block.hash (Block.init now index txs prev snapshot)
  = Block.calculate_hash (Block.init now index txs prev snapshot).
Proof. reflexivity. Qed.

Lemma reachable_links (s : t) :
  reachable s ->
  forall i, (1 <= i < length (chain s))%nat -> link_ok (chain s) i.
Proof.
  induction 1 as [now | tx s _ IH | now snapshot s b s' Hr IH Hc].
  - simpl. intros i Hi. lia.
  - exact IH.
  - apply create_block_inv in Hc as (latest & Hl & Hb & ->). simpl.
    intros i Hi. rewrite length_app in Hi. simpl in Hi.
    destruct (decide (i < length (chain s))%nat) as [Hlt|Hge].
    + destruct (IH i ltac:(lia)) as (c & p & Hc & Hp & Hh & Hk).
      exists c, p. rewrite !lookup_app_l by lia. auto.
    + assert (i = length (chain s)) as -> by lia.
      exists b, latest. split; [|split; [|split]].
      * rewrite lookup_app_r by lia. rewrite Nat.sub_diag. reflexivity.
      * rewrite lookup_app_l by lia.
        unfold get_latest_block in Hl. rewrite last_lookup in Hl.
        rewrite <- Hl. f_equal. lia.
      * subst b. apply init_hash_fresh.
      * subst b. reflexivity.
Qed.

Lemma reachable_valid (s : t) : reachable s -> is_chain_valid s = true.
Proof. intros H. apply is_chain_valid_spec, reachable_links, H. Qed.

Lemma with_block_valid (s : t) (i : nat) (b b' : Block.t) :
  is_chain_valid s = true ->
  chain s !! i = Some b ->
  is_chain_valid (with_block i b' s) = true
  <-> ((1 <= i)%nat ->
         Block.hash b' = Block.calculate_hash b'
         /\ exists p, chain s !! (i - 1)%nat = Some p
                      /\ Block.previous_hash b' = Block.hash p)
      /\ ((S i < length (chain s))%nat -> Block.hash b' = Block.hash b).
Proof.
  intros Hv Hb. rewrite is_chain_valid_spec in Hv.
  rewrite is_chain_valid_spec. unfold with_block. simpl.
  rewrite length_insert.
  pose proof (lookup_lt_Some _ _ _ Hb) as Hi.
  split.
  - intros H. split.
    + intros H1. destruct (H i ltac:(lia)) as (c & p & Hc & Hp & Hh & Hk).
      rewrite list_lookup_insert_eq in Hc by lia. injection Hc as <-.
      rewrite list_lookup_insert_ne in Hp by lia.
      split; [exact Hh | eauto].
    + intros H2. destruct (H (S i) ltac:(lia)) as (c & p & Hc & Hp & Hh & Hk).
      rewrite list_lookup_insert_ne in Hc by lia.
      replace (S i - 1)%nat with i in Hp by lia.
      rewrite list_lookup_insert_eq in Hp by lia. injection Hp as <-.
      destruct (Hv (S i) ltac:(lia)) as (c' & p' & Hc' & Hp' & Hh' & Hk').
      replace (S i - 1)%nat with i in Hp' by lia.
      congruence.
  - intros [H1 H2] j Hj.
    destruct (Hv j Hj) as (c & p & Hc & Hp & Hh & Hk).
    destruct (decide (j = i)) as [->|Hji].
    + destruct (H1 ltac:(lia)) as (Hh' & p' & Hp' & Hk').
      exists b', p'. rewrite list_lookup_insert_eq by lia.
      rewrite list_lookup_insert_ne by lia. auto.
    + destruct (decide (j = S i)) as [->|Hjs].
      * exists c, b'. rewrite list_lookup_insert_ne by lia.
        replace (S i - 1)%nat with i in * by lia.
        rewrite list_lookup_insert_eq by lia.
        repeat split; try assumption.
        rewrite H2 by lia. congruence.
      * exists c, p. rewrite !list_lookup_insert_ne by lia. auto.
Qed.

End ChainValid.

(** Building a ledger from a list of pending transactions. *)
Lemma reachable_adds (txs : list Transaction.t) (s : AstroBlockchain.t) :
  reachable s ->
  reachable (AstroBlockchain.mk (AstroBlockchain.chain s)
               (AstroBlockchain.pending_transactions s ++ txs)).
Proof.
  revert s. induction txs as [|tx txs IH]; intros s Hr.
  - rewrite app_nil_r. destruct s. exact Hr.
  - apply (reach_add tx) in Hr. apply IH in Hr. simpl in Hr.
    rewrite <- app_assoc in Hr. exact Hr.
Qed.

Lemma reachable_ledger_of (txs : list Transaction.t) :
  reachable (ledger_of txs).
Proof.
  apply (reach_create ledger_clock empty_snapshot
           (AstroBlockchain.mk [genesis_block] txs)
           (Block.init ledger_clock 1 txs (Block.hash genesis_block)
                       empty_snapshot)).
  - apply (reachable_adds txs (AstroBlockchain.init ledger_clock)).
    constructor.
  - reflexivity.
Qed.

(** C1, as stated, fails: after the amount of the transaction stored in
    block 1 of a reachable ledger is overwritten (50 becomes 5000, no
    hash recomputed), [is_chain_valid] still answers [true]. *)
Lemma C1_tampered_amount_undetected :
  reachable paid_ledger
  /\ AstroBlockchain.chain paid_ledger !! 1%nat = Some (paid_block (Int 50))
  /\ paid_block (Int 5000) <> paid_block (Int 50)
  /\ AstroBlockchain.is_chain_valid
       (with_block 1 (paid_block (Int 5000)) paid_ledger) = true.
Proof.
  split; [|split; [|split]].
  - exact (reachable_ledger_of [payment (Int 50)]).
  - vm_compute. reflexivity.
  - intros E.
    apply (f_equal (fun b => map Transaction.amount (Block.transactions b))) in E.
    vm_compute in E. discriminate E.
  - vm_compute. reflexivity.
Qed.

(** C1, amended.  On every ledger built by [add_transaction] and
    [create_block], [is_chain_valid] answers [true]; and after the block
    stored at position [i] is overwritten by [b'], it still answers
    [true] exactly when (for [1 <= i]) the stored hash of [b'] is the
    hash recomputed from its index, timestamp, previous hash, Merkle
    root, fingerprint and nonce and its previous hash is the hash stored
    in block [i - 1], and (when block [i] has a successor) the stored
    hash of [b'] is the one the overwritten block had.  Changes to the
    transactions or the snapshot of a block, and to any field but the
    hash of the genesis block, are therefore not detected. *)
Theorem C1_chain_valid (s : AstroBlockchain.t) (i : nat) (b b' : Block.t) :
  reachable s ->
  AstroBlockchain.chain s !! i = Some b ->
  AstroBlockchain.is_chain_valid s = true
  /\ (AstroBlockchain.is_chain_valid (with_block i b' s) = true
      <-> ((1 <= i)%nat ->
             Block.hash b' = Block.calculate_hash b'
             /\ exists p, AstroBlockchain.chain s !! (i - 1)%nat = Some p
                          /\ Block.previous_hash b' = Block.hash p)
          /\ ((S i < length (AstroBlockchain.chain s))%nat ->
                Block.hash b' = Block.hash b)).
Proof.
  intros Hr Hb. split; [apply reachable_valid, Hr|].
  apply with_block_valid; [apply reachable_valid, Hr | exact Hb].
Qed.

Lemma C1_chain_valid_witness :
  AstroBlockchain.is_chain_valid paid_ledger = true
  /\ (AstroBlockchain.is_chain_valid
        (with_block 1 (paid_block (Int 5000)) paid_ledger) = true
      <-> ((1 <= 1)%nat ->
             Block.hash (paid_block (Int 5000))
             = Block.calculate_hash (paid_block (Int 5000))
             /\ exists p, AstroBlockchain.chain paid_ledger !! (1 - 1)%nat = Some p
                          /\ Block.previous_hash (paid_block (Int 5000))
                             = Block.hash p)
          /\ ((2 < length (AstroBlockchain.chain paid_ledger))%nat ->
                Block.hash (paid_block (Int 5000))
                = Block.hash (paid_block (Int 50)))).
Proof.
  apply (C1_chain_valid paid_ledger 1 (paid_block (Int 50))
           (paid_block (Int 5000))).
  - exact (reachable_ledger_of [payment (Int 50)]).
  - vm_compute. reflexivity.
Defined.

(** ** Balances *)

Section Balances.

Import AstroBlockchain.

Lemma foldM_app {A B : Type} (f : B -> A -> option B) (l1 l2 : list A) (b : B) :
  foldM f (l1 ++ l2) b = foldM f l1 b ≫= foldM f l2.
Proof.
  revert b. induction l1 as [|x l1 IH]; intros b; simpl.
  - reflexivity.
  - destruct (f b x) as [b'|]; simpl; [apply IH | reflexivity].
Qed.

(** [get_balance] is one pass over the stored transactions. *)
Lemma get_balance_chain (blocks : list Block.t) (address : string) (b : number) :
  foldM (fun balance block =>
           foldM (balance_step address) (Block.transactions block) balance)
        blocks b
  = foldM (balance_step address) (flat_map Block.transactions blocks) b.
Proof.
  revert b. induction blocks as [|blk blocks IH]; intros b; simpl.
  - reflexivity.
  - rewrite foldM_app.
    destruct (foldM (balance_step address) (Block.transactions blk) b);
      simpl; [apply IH | reflexivity].
Qed.

Lemma get_balance_flat (s : t) (address : string) :
  get_balance s address
  = foldM (balance_step address) (all_transactions s) (Int 0).
Proof. apply get_balance_chain. Qed.

Lemma get_balance_snoc (blocks : list Block.t) (pending : list Transaction.t)
    (b : Block.t) (address : string) :
  get_balance (mk (blocks ++ [b]) pending) address
  = get_balance (mk blocks []) address
      ≫= foldM (balance_step address) (Block.transactions b).
Proof.
  rewrite !get_balance_flat. unfold all_transactions. simpl.
  rewrite flat_map_app, foldM_app. simpl. rewrite app_nil_r. reflexivity.
Qed.

End Balances.

(** C10. [get_balance] reads the chain only: it is the same on two
    ledgers with the same chain, so [add_transaction] changes the
    balance of no address; once [create_block] has put the pending
    transactions, the added one included, into a block, the balance is
    the former balance advanced through them in order. *)
Theorem C10_pending_not_counted (s : AstroBlockchain.t) (tx : Transaction.t)
    (address : string) now snapshot :
  AstroBlockchain.chain s <> [] ->
  (forall pending,
      AstroBlockchain.get_balance
        (AstroBlockchain.mk (AstroBlockchain.chain s) pending) address
      = AstroBlockchain.get_balance s address)
  /\ AstroBlockchain.get_balance (AstroBlockchain.add_transaction tx s) address
     = AstroBlockchain.get_balance s address
  /\ exists b s',
       AstroBlockchain.create_block now snapshot
         (AstroBlockchain.add_transaction tx s) = Some (b, s')
       /\ Block.transactions b = AstroBlockchain.pending_transactions s ++ [tx]
       /\ AstroBlockchain.get_balance s' address
          = AstroBlockchain.get_balance s address
              ≫= AstroBlockchain.foldM (AstroBlockchain.balance_step address)
                   (AstroBlockchain.pending_transactions s ++ [tx]).
Proof.
  intros Hne. split; [reflexivity|]. split; [reflexivity|].
  destruct (get_latest_block_some (AstroBlockchain.add_transaction tx s) Hne)
    as [latest Hl].
  eexists _, _. split; [apply create_block_some, Hl|].
  split; [reflexivity|].
  simpl. rewrite get_balance_snoc. reflexivity.
Qed.

Lemma C10_pending_not_counted_witness :
  (forall pending,
      AstroBlockchain.get_balance
        (AstroBlockchain.mk (AstroBlockchain.chain scenario_ledger) pending) "bob"
      = AstroBlockchain.get_balance scenario_ledger "bob")
  /\ AstroBlockchain.get_balance
       (AstroBlockchain.add_transaction (payment (Int 50)) scenario_ledger) "bob"
     = AstroBlockchain.get_balance scenario_ledger "bob"
  /\ exists b s',
       AstroBlockchain.create_block ledger_clock empty_snapshot
         (AstroBlockchain.add_transaction (payment (Int 50)) scenario_ledger)
       = Some (b, s')
       /\ Block.transactions b
          = AstroBlockchain.pending_transactions scenario_ledger
              ++ [payment (Int 50)]
       /\ AstroBlockchain.get_balance s' "bob"
          = AstroBlockchain.get_balance scenario_ledger "bob"
              ≫= AstroBlockchain.foldM (AstroBlockchain.balance_step "bob")
                   (AstroBlockchain.pending_transactions scenario_ledger
                      ++ [payment (Int 50)]).
Proof.
  apply (C10_pending_not_counted scenario_ledger (payment (Int 50)) "bob"
           ledger_clock empty_snapshot).
  discriminate.
Defined.

(** The scenario of the three transfers: balances -75, 50 and 25, and
    100 for bob once a further payment of 50 is in a block. *)
Example scenario_balances :
  AstroBlockchain.get_balance scenario_ledger "alice" = Some (Int (-75))
  /\ AstroBlockchain.get_balance scenario_ledger "bob" = Some (Int 50)
  /\ AstroBlockchain.get_balance scenario_ledger "charlie" = Some (Int 25)
  /\ sum_balances scenario_ledger ["alice"; "bob"; "charlie"] = Some (Int 0).
Proof. vm_compute. auto. Qed.

Section Conservation.

Import AstroBlockchain.

Lemma balance_step_integral (address : string) (tx : Transaction.t) (acc : Z) :
  is_int (Transaction.amount tx) = true ->
  balance_step address (Int acc) tx = Some (Int (acc + delta address tx)).
Proof.
  unfold balance_step, delta, int_amount.
  destruct (Transaction.amount tx) as [z|f]; [intros _|discriminate].
  destruct (String.eqb (Transaction.from_address tx) address);
    destruct (String.eqb (Transaction.to_address tx) address);
    simpl; f_equal; f_equal; lia.
Qed.

Lemma foldM_integral (address : string) (txs : list Transaction.t) (acc : Z) :
  forallb (fun tx => is_int (Transaction.amount tx)) txs = true ->
  foldM (balance_step address) txs (Int acc)
  = Some (Int (acc + zsum (delta address) txs)).
Proof.
  revert acc. induction txs as [|tx txs IH]; intros acc Hint; simpl.
  - f_equal. f_equal. lia.
  - simpl in Hint. apply andb_true_iff in Hint as [Htx Hint].
    rewrite balance_step_integral by exact Htx. simpl.
    rewrite IH by exact Hint. f_equal. f_equal. lia.
Qed.

Lemma get_balance_integral (s : t) (address : string) :
  integral s = true ->
  get_balance s address = Some (Int (zsum (delta address) (all_transactions s))).
Proof.
  intros Hint. rewrite get_balance_flat.
  apply (foldM_integral address _ 0 Hint).
Qed.

Lemma sum_balances_integral (s : t) (addresses : list string) :
  integral s = true ->
  sum_balances s addresses
  = Some (Int (zsum (fun a => zsum (delta a) (all_transactions s)) addresses)).
Proof.
  intros Hint. unfold sum_balances.
  enough (forall acc,
    foldM (fun acc a => b ← get_balance s a; Py.add acc b) addresses (Int acc)
    = Some (Int (acc + zsum (fun a => zsum (delta a) (all_transactions s))
                            addresses))) as H by apply (H 0).
  induction addresses as [|a addresses IH]; intros acc; simpl.
  - f_equal. f_equal. lia.
  - rewrite get_balance_integral by exact Hint. simpl.
    rewrite IH. f_equal. f_equal. lia.
Qed.

Lemma zsum_indicator (addresses : list string) (x : string) (v : Z) :
  NoDup addresses ->
  mentions addresses x = true ->
  zsum (fun a => if String.eqb x a then v else 0) addresses = v.
Proof.
  intros Hnd. induction Hnd as [|a l Hni Hnd IH]; simpl; intros Hx.
  - discriminate.
  - destruct (String.eqb_spec x a) as [->|Hne]; simpl in Hx.
    + enough (zsum (fun a0 => if String.eqb a a0 then v else 0) l = 0) by lia.
      clear IH Hx Hnd. induction l as [|y l IHl]; simpl; [reflexivity|].
      apply not_elem_of_cons in Hni as [Hay Hni].
      destruct (String.eqb_spec a y); [contradiction|].
      rewrite IHl by exact Hni. reflexivity.
    + rewrite IH by exact Hx. reflexivity.
Qed.

Lemma zsum_delta (addresses : list string) (tx : Transaction.t) :
  NoDup addresses ->
  mentions addresses (Transaction.from_address tx) = true ->
  mentions addresses (Transaction.to_address tx) = true ->
  zsum (fun a => delta a tx) addresses = 0.
Proof.
  intros Hnd Hf Ht.
  pose proof (zsum_indicator addresses _ (int_amount tx) Hnd Hf) as Ef.
  pose proof (zsum_indicator addresses _ (int_amount tx) Hnd Ht) as Et.
  unfold delta.
  enough (forall l,
    zsum (fun a =>
            (if String.eqb (Transaction.to_address tx) a then int_amount tx else 0)
            - (if String.eqb (Transaction.from_address tx) a then int_amount tx else 0)) l
    = zsum (fun a => if String.eqb (Transaction.to_address tx) a
                     then int_amount tx else 0) l
      - zsum (fun a => if String.eqb (Transaction.from_address tx) a
                       then int_amount tx else 0) l) as H
    by (rewrite H; lia).
  induction l as [|y l IHl]; simpl; [reflexivity | rewrite IHl; lia].
Qed.

Lemma zsum_all_deltas (addresses : list string) (txs : list Transaction.t) :
  NoDup addresses ->
  forallb (fun tx => mentions addresses (Transaction.from_address tx)
                     && mentions addresses (Transaction.to_address tx)) txs
  = true ->
  zsum (fun a => zsum (delta a) txs) addresses = 0.
Proof.
  intros Hnd. induction txs as [|tx txs IH]; simpl; intros Hcl.
  - induction addresses; simpl; [reflexivity|].
    apply NoDup_cons in Hnd as [_ Hnd]. rewrite IHaddresses; auto.
  - apply andb_true_iff in Hcl as [Htx Hcl].
    apply andb_true_iff in Htx as [Hf Ht].
    specialize (IH Hcl).
    pose proof (zsum_delta addresses tx Hnd Hf Ht) as E0.
    enough (forall l,
      zsum (fun a => delta a tx + zsum (delta a) txs) l
      = zsum (fun a => delta a tx) l + zsum (fun a => zsum (delta a) txs) l)
      as H by (rewrite H; lia).
    induction l as [|y l IHl]; simpl; [reflexivity | rewrite IHl; lia].
Qed.

End Conservation.

(** Closed lists of distinct strings. *)
Ltac distinct_strings :=
  repeat (apply NoDup_cons_2;
          [ let H := fresh in
            intros H;
            repeat (apply elem_of_cons in H as [H|H]; [discriminate H|]);
            apply elem_of_nil in H; exact H
          | ]);
  apply NoDup_nil_2.

(** C4, as stated, fails on [float] amounts: with transfers of 0.1 and
    0.2 out of one account, the three balances are binary64 values whose
    sum, whether added as [float]s from left to right or exactly, is not
    zero. *)
Lemma C4_float_balances_do_not_cancel :
  reachable float_ledger
  /\ NoDup ["alice"; "bob"; "charlie"]
  /\ closed_over ["alice"; "bob"; "charlie"] float_ledger = true
  /\ AstroBlockchain.get_balance float_ledger "alice"
     = Some (Float (S754_finite true 5404319552844596 (-54)))
  /\ AstroBlockchain.get_balance float_ledger "bob" = Some (Float tenth)
  /\ AstroBlockchain.get_balance float_ledger "charlie" = Some (Float fifth)
  /\ sum_balances float_ledger ["alice"; "bob"; "charlie"]
     = Some (Float (S754_finite true 4503599627370496 (-107)))
  /\ ~ (PyFloat.value (S754_finite true 5404319552844596 (-54))
        + PyFloat.value tenth + PyFloat.value fifth == 0)%Q.
Proof.
  split; [apply reachable_ledger_of|].
  split; [distinct_strings|].
  repeat split; try (vm_compute; reflexivity).
  vm_compute. discriminate.
Qed.

(** C4, amended.  On every ledger whose stored amounts are all [int]s
    and whose stored transactions name only addresses of a duplicate-free
    list [addresses] as sender or receiver, every balance is an [int]
    and the balances of [addresses] sum to zero. *)
Theorem C4_conservation (s : AstroBlockchain.t) (addresses : list string) :
  NoDup addresses ->
  closed_over addresses s = true ->
  integral s = true ->
  sum_balances s addresses = Some (Int 0).
Proof.
  intros Hnd Hcl Hint.
  rewrite sum_balances_integral by exact Hint.
  rewrite zsum_all_deltas; [reflexivity | exact Hnd | exact Hcl].
Qed.

Lemma C4_conservation_witness :
  sum_balances scenario_ledger ["alice"; "bob"; "charlie"] = Some (Int 0).
Proof.
  apply (C4_conservation scenario_ledger ["alice"; "bob"; "charlie"]).
  - distinct_strings.
  - vm_compute. reflexivity.
  - vm_compute. reflexivity.
Defined.

(** ** The consensus gate *)

Lemma prefix_app (p s : string) :
  String.prefix p s = true <-> exists rest, s = p +++ rest.
Proof.
  revert s. induction p as [|c p IH]; intros s; simpl.
  - split; [intros _; exists s; reflexivity | destruct s; reflexivity].
  - destruct s as [|c' s]; simpl.
    + split; [discriminate | intros [rest E]; discriminate].
    + destruct (Ascii.ascii_dec c c') as [->|Hne].
      * rewrite IH. split; intros [rest E]; exists rest; congruence.
      * split; [discriminate | intros [rest E]; congruence].
Qed.

(** C5. [can_create_block] answers [true] exactly when the hex digest of
    the fingerprint joined to the identity by ["_"] starts with the
    difficulty target.  The operation is a function of the gate and its
    two arguments and returns nothing but the answer. *)
Theorem C5_can_create_block (self : ProofOfAstronomy.t)
    (consensus_hash node_id : string) :
  ProofOfAstronomy.can_create_block self consensus_hash node_id = true
  <-> exists rest,
        sha256_hex (consensus_hash +++ "_" +++ node_id)
        = ProofOfAstronomy.difficulty_target self +++ rest.
Proof. unfold ProofOfAstronomy.can_create_block, startswith. apply prefix_app. Qed.

Section NonceSearch.

Import ProofOfAstronomy.

Variable self : t.
Variable consensus_hash : string.


End NonceSearch.


(** The search on a gate of difficulty ["0"]: nonce 3 is the first to
    admit the fingerprint of the anchored snapshot; a bound of 3 is
    exhausted without result. *)
Example find_valid_nonce_runs :
  let easy := ProofOfAstronomy.mk 600000000 None "0" "be249c040d6e4255" in
  let fingerprint := Snapshot.get_or_empty (Snapshot.astronomical_hash anchored_snapshot) in
  ProofOfAstronomy.find_valid_nonce easy fingerprint 100 = Some 3
  /\ ProofOfAstronomy.find_valid_nonce easy fingerprint 3 = None
  /\ ProofOfAstronomy.find_valid_nonce demo_gate fingerprint 20 = None
  /\ ProofOfAstronomy.find_valid_nonce demo_gate fingerprint (-5) = None.
Proof. vm_compute. auto. Qed.

(** ** Validation of an anchored block *)

(** C7, as stated, fails in its last part: the stored fingerprint of a
    block is edited by hand in its serialized form, the snapshot is left
    as it was, and [validate_astronomical_block] still answers [true]. *)
Lemma C7_edited_fingerprint_accepted :
  BlockData.astronomical_data (BlockData.of_block anchored_block)
  = Some anchored_snapshot
  /\ BlockData.astronomical_data edited_block_data = Some anchored_snapshot
  /\ ProofOfAstronomy.calculate_astronomical_consensus Iso.fromisoformat
       anchored_snapshot
     = Some "206b5f705d6ab27b84e75c5247dd9da76865491893bf9a44cf272ea7b3aa2737"
  /\ BlockData.astronomical_hash (BlockData.of_block anchored_block)
     = "206b5f705d6ab27b84e75c5247dd9da76865491893bf9a44cf272ea7b3aa2737"
  /\ BlockData.astronomical_hash edited_block_data
     = "ffffffffffffffffffffffffffffffffffffffffffffffffffffffffffffffff"
  /\ ProofOfAstronomy.validate_astronomical_block Iso.fromisoformat demo_gate
       (BlockData.of_block anchored_block) = true
  /\ ProofOfAstronomy.validate_astronomical_block Iso.fromisoformat demo_gate
       edited_block_data = true.
Proof. repeat split; vm_compute; reflexivity. Qed.

(** C7, amended.  [validate_astronomical_block] always returns a
    boolean.  It answers [true] exactly when the serialized form holds a
    snapshot, the fingerprint recomputed from that snapshot is obtained
    without error, and it equals the fingerprint recorded inside the
    snapshot under ["astronomical_hash"] (the empty string when that key
    is absent); in every other case, the absent snapshot included, it
    answers [false].  The fingerprint stored in the block itself is not
    read: overwriting it leaves the answer as it was. *)
Theorem C7_validate_astronomical_block
    (fromisoformat : string -> option Datetime.t)
    (self : ProofOfAstronomy.t) (block_data : BlockData.t) :
  (ProofOfAstronomy.validate_astronomical_block fromisoformat self block_data
   = true
   <-> exists snapshot,
         BlockData.astronomical_data block_data = Some snapshot
         /\ ProofOfAstronomy.calculate_astronomical_consensus fromisoformat
              snapshot
            = Some (Snapshot.get_or_empty (Snapshot.astronomical_hash snapshot)))
  /\ (forall h,
        ProofOfAstronomy.validate_astronomical_block fromisoformat self
          (BlockData.set_astronomical_hash h block_data)
        = ProofOfAstronomy.validate_astronomical_block fromisoformat self
            block_data).
Proof.
  split; [|reflexivity].
  unfold ProofOfAstronomy.validate_astronomical_block.
  destruct (BlockData.astronomical_data block_data) as [snapshot|].
  - destruct (ProofOfAstronomy.calculate_astronomical_consensus fromisoformat
                snapshot) as [h|] eqn:E.
    + destruct (String.eqb_spec h
                  (Snapshot.get_or_empty (Snapshot.astronomical_hash snapshot)))
        as [->|Hne]; simpl.
      * split; [intros _; exists snapshot; rewrite E; auto | reflexivity].
      * split; [discriminate|]. intros (s & Hs & Hc).
        injection Hs as <-. rewrite E in Hc. congruence.
    + split; [discriminate|]. intros (s & Hs & Hc).
      injection Hs as <-. rewrite E in Hc. discriminate.
  - split; [discriminate|]. intros (s & Hs & _). discriminate.
Qed.

(** ** Malformed timestamps *)


Section Malformed.

Import ProofOfAstronomy.

Variable fromisoformat : string -> option Datetime.t.



(** The timestamp is read last: it adds one component, or none. *)
Lemma consensus_components_timestamp type ts sources fingerprint :
  ts <> "" ->
  consensus_components fromisoformat
    (Snapshot.mk type (Some ts) sources fingerprint)
  = c ← consensus_components fromisoformat
          (Snapshot.mk type None sources fingerprint);
    Some (c ++ [time_component fromisoformat ts]).
Proof.
  intros Hts. unfold consensus_components. simpl.
  destruct (String.eqb_spec ts "") as [|_]; [contradiction|].
  destruct (Snapshot.iss (default (Snapshot.mkSources None None) sources))
    as [i|]; simpl;
    [destruct (iss_component i); simpl; [|reflexivity]|];
    (destruct (Snapshot.solar (default (Snapshot.mkSources None None) sources))
       as [o|]; simpl;
     [destruct (solar_component o); reflexivity | reflexivity]).
Qed.

End Malformed.

(** What each operation tries to parse. *)
Lemma cleaned_timestamps :
  replace "+00:00" "" (replace "Z" "+00:00" "2024-01-02T03:04:00ZZ")
  = "2024-01-02T03:04:00"
  /\ replace "Z" "" "2024-01-02T03:04:00ZZ" = "2024-01-02T03:04:00"
  /\ replace "Z" "" "Z2024-01-02T03:04:00" = "2024-01-02T03:04:00"
  /\ replace "+00:00" "" (replace "Z" "+00:00" "2024-01-02T03:04:00+00:00+00:00")
     = "2024-01-02T03:04:00"
  /\ replace "Z" "" "2024-01-02T03:04:00+00:00+00:00"
     = "2024-01-02T03:04:00+00:00+00:00".
Proof. repeat split; vm_compute; reflexivity. Qed.

(** Timestamps that do not parse as given, but do after the cleaning:
    they are not taken for malformed.  Five seconds after the time they
    spell the gate answers [false], and the fingerprint holds the
    ten-minute bucket, not the raw timestamp.  A doubled [+00:00] is
    cleaned by the gate and not by the fingerprint. *)
Example repaired_timestamps :
  Iso.fromisoformat "2024-01-02T03:04:00ZZ" = None
  /\ Iso.fromisoformat "Z2024-01-02T03:04:00" = None
  /\ Iso.fromisoformat "2024-01-02T03:04:00+00:00+00:00" = None
  /\ ProofOfAstronomy.is_time_for_new_block Iso.fromisoformat demo_gate
       ledger_clock "2024-01-02T03:04:00ZZ" = false
  /\ ProofOfAstronomy.is_time_for_new_block Iso.fromisoformat demo_gate
       ledger_clock "Z2024-01-02T03:04:00" = false
  /\ ProofOfAstronomy.is_time_for_new_block Iso.fromisoformat demo_gate
       ledger_clock "2024-01-02T03:04:00+00:00+00:00" = false
  /\ ProofOfAstronomy.consensus_components Iso.fromisoformat
       (Snapshot.mk None (Some "2024-01-02T03:04:00ZZ") None None)
     = Some ["time_2024-01-02T03:00:00"]
  /\ ProofOfAstronomy.consensus_components Iso.fromisoformat
       (Snapshot.mk None (Some "2024-01-02T03:04:00+00:00+00:00") None None)
     = Some ["time_2024-01-02T03:04:00+00:00+00:00"].
Proof. repeat split; vm_compute; reflexivity. Qed.



(** ** Stability of the fingerprint *)

Lemma round_half_even_near (y : Q) (k : Z) :
  (Qabs (y - inject_Z k) < 1 # 2)%Q -> PyFloat.round_half_even y = k.
Proof.
  intros H. apply Qabs_Qlt_condition in H as [Hlo Hhi].
  destruct y as [n d].
  unfold Qlt in Hlo, Hhi. simpl in Hlo, Hhi.
  unfold PyFloat.round_half_even, Qfloor, Qcompare. simpl.
  rewrite ?Pos.mul_1_r in *.
  pose proof (Z.div_mod n (Zpos d) ltac:(lia)) as Hdm.
  pose proof (Z.mod_pos_bound n (Zpos d) ltac:(lia)) as Hr.
  set (f := n / Zpos d) in *. set (r := n mod Zpos d) in *.
  assert (f = k \/ f = k - 1) as [Hf|Hf] by nia.
  - match goal with |- context [?a ?= ?b] => destruct (Z.compare_spec a b) end;
      [exfalso; nia | exact Hf | exfalso; nia].
  - match goal with |- context [?a ?= ?b] => destruct (Z.compare_spec a b) end;
      [exfalso; nia | exfalso; nia | lia].
Qed.

Lemma round_in_cell (ndigits : Z) (s : bool) (k : Z) (x : spec_float) :
  in_cell ndigits s k x ->
  PyFloat.round x ndigits = PyFloat.of_decimal s k (- ndigits).
Proof.
  destruct x as [s'|s'| |s' m e]; unfold in_cell, PyFloat.round;
    try contradiction.
  - intros [-> ->]. reflexivity.
  - intros [-> H]. rewrite (round_half_even_near _ k H). reflexivity.
Qed.

Section Stability.

Import ProofOfAstronomy.

Variable fromisoformat : string -> option Datetime.t.

Lemma close_reading_round (ndigits : Z) (r r' : option number) :
  close_reading ndigits r r' ->
  exists x x',
    r ≫= Py.float = Some x /\ r' ≫= Py.float = Some x'
    /\ PyFloat.round x ndigits = PyFloat.round x' ndigits.
Proof.
  intros (x & x' & s & k & Hx & Hx' & Hc & Hc').
  exists x, x'. split; [exact Hx|]. split; [exact Hx'|].
  rewrite (round_in_cell _ _ _ _ Hc), (round_in_cell _ _ _ _ Hc').
  reflexivity.
Qed.

Lemma iss_component_close (i i' : Snapshot.Iss) :
  close_iss i i' -> iss_component i = iss_component i'.
Proof.
  intros [Hlat Hlon]. unfold iss_component.
  apply close_reading_round in Hlat as (x & x' & -> & -> & Ex).
  apply close_reading_round in Hlon as (y & y' & -> & -> & Ey).
  simpl. rewrite Ex, Ey. reflexivity.
Qed.

Lemma solar_component_close (o o' : Snapshot.Solar) :
  close_solar o o' -> solar_component o = solar_component o'.
Proof.
  intros H. unfold solar_component.
  apply close_reading_round in H as (x & x' & -> & -> & Ex).
  simpl. rewrite Ex. reflexivity.
Qed.

Lemma time_component_bucket (ts ts' : string) (dt dt' : Datetime.t) :
  fromisoformat (replace "Z" "" ts) = Some dt ->
  fromisoformat (replace "Z" "" ts') = Some dt' ->
  same_bucket dt dt' ->
  time_component fromisoformat ts = time_component fromisoformat ts'.
Proof.
  intros E E' (Hy & Hm & Hd & Hh & Hz & Hb).
  unfold time_component. rewrite E, E'.
  unfold Datetime.replace_minute.
  rewrite Hy, Hm, Hd, Hh, Hz, Hb. reflexivity.
Qed.

Lemma consensus_components_close (a a' : Snapshot.t) :
  close_snapshot fromisoformat a a' ->
  consensus_components fromisoformat a = consensus_components fromisoformat a'.
Proof.
  intros [Hsrc Hts]. unfold consensus_components.
  assert (Snapshot.get_or_empty (Snapshot.timestamp a) = ""
          /\ Snapshot.get_or_empty (Snapshot.timestamp a') = ""
          \/ Snapshot.get_or_empty (Snapshot.timestamp a) <> ""
             /\ Snapshot.get_or_empty (Snapshot.timestamp a') <> ""
             /\ time_component fromisoformat
                  (Snapshot.get_or_empty (Snapshot.timestamp a))
                = time_component fromisoformat
                    (Snapshot.get_or_empty (Snapshot.timestamp a'))) as Ht.
  { destruct Hts as [<-|(ts & ts' & dt & dt' & -> & -> & Hn & Hn' & E & E' & Hb)].
    - destruct (String.eqb_spec
                  (Snapshot.get_or_empty (Snapshot.timestamp a)) "");
        [left | right]; auto.
    - right. simpl. split; [exact Hn|]. split; [exact Hn'|].
      exact (time_component_bucket ts ts' dt dt' E E' Hb). }
  assert (forall src src', close_sources src src' ->
            (match Snapshot.iss src with
             | Some iss => c ← iss_component iss; Some ([] ++ [c])
             | None => Some []
             end
             = match Snapshot.iss src' with
               | Some iss => c ← iss_component iss; Some ([] ++ [c])
               | None => Some []
               end)
            /\ forall l,
                 match Snapshot.solar src with
                 | Some solar => c ← solar_component solar; Some (l ++ [c])
                 | None => Some l
                 end
                 = match Snapshot.solar src' with
                   | Some solar => c ← solar_component solar; Some (l ++ [c])
                   | None => Some l
                   end) as Hparts.
  { intros src src' [Hi Ho]. split.
    - destruct Hi as [i i' Hi|]; [|reflexivity].
      rewrite (iss_component_close i i' Hi). reflexivity.
    - intros l. destruct Ho as [o o' Ho|]; [|reflexivity].
      rewrite (solar_component_close o o' Ho). reflexivity. }
  assert (close_sources
            (default (Snapshot.mkSources None None) (Snapshot.sources a))
            (default (Snapshot.mkSources None None) (Snapshot.sources a')))
    as Hdef.
  { destruct Hsrc as [src src' H|]; [exact H|]. split; constructor. }
  destruct (Hparts _ _ Hdef) as [Hiss Hsolar].
  rewrite Hiss.
  destruct (match Snapshot.iss
                    (default (Snapshot.mkSources None None) (Snapshot.sources a'))
            with
            | Some iss => c ← iss_component iss; Some ([] ++ [c])
            | None => Some []
            end) as [l|]; simpl; [|reflexivity].
  rewrite Hsolar.
  destruct (match Snapshot.solar
                    (default (Snapshot.mkSources None None) (Snapshot.sources a'))
            with
            | Some solar => c ← solar_component solar; Some (l ++ [c])
            | None => Some l
            end) as [l'|]; simpl; [|reflexivity].
  destruct Ht as [[-> ->]|(Hn & Hn' & ->)]; [reflexivity|].
  destruct (String.eqb_spec (Snapshot.get_or_empty (Snapshot.timestamp a)) "");
    [contradiction|].
  destruct (String.eqb_spec (Snapshot.get_or_empty (Snapshot.timestamp a')) "");
    [contradiction|].
  reflexivity.
Qed.

End Stability.

(** C8, as stated, fails for the readings: a latitude moved by 0.002
    degrees across a rounding boundary (36.394 to 36.396), or a flux
    moved by 0.00002 across one (0.18264 to 0.18266), changes the
    rounded component and with it the fingerprint. *)
Lemma C8_small_perturbation_changes_fingerprint :
  let lat := PyFloat.of_decimal false 36394 (-3) in
  let lat' := PyFloat.of_decimal false 36396 (-3) in
  let flux := PyFloat.of_decimal false 18264 (-5) in
  let flux' := PyFloat.of_decimal false 18266 (-5) in
  let ts := Some "2024-01-02T03:04:05.123" in
  (Qabs (PyFloat.value lat' - PyFloat.value lat) < 5 # 1000)%Q
  /\ (Qabs (PyFloat.value flux' - PyFloat.value flux) < 5 # 100000)%Q
  /\ ProofOfAstronomy.consensus_components Iso.fromisoformat
       (observed_at lat flux ts None)
     = Some ["iss_36.39_173.77"; "solar_0.1826"; "time_2024-01-02T03:00:00"]
  /\ ProofOfAstronomy.consensus_components Iso.fromisoformat
       (observed_at lat' flux ts None)
     = Some ["iss_36.4_173.77"; "solar_0.1826"; "time_2024-01-02T03:00:00"]
  /\ ProofOfAstronomy.consensus_components Iso.fromisoformat
       (observed_at lat flux' ts None)
     = Some ["iss_36.39_173.77"; "solar_0.1827"; "time_2024-01-02T03:00:00"]
  /\ ProofOfAstronomy.calculate_astronomical_consensus Iso.fromisoformat
       (observed_at lat flux ts None)
     = Some "206b5f705d6ab27b84e75c5247dd9da76865491893bf9a44cf272ea7b3aa2737"
  /\ ProofOfAstronomy.calculate_astronomical_consensus Iso.fromisoformat
       (observed_at lat' flux ts None)
     = Some "9996067cc386d16ae6d054c15ce30533a3b0d68bec3653020b3801eedffdeed2"
  /\ ProofOfAstronomy.calculate_astronomical_consensus Iso.fromisoformat
       (observed_at lat flux' ts None)
     = Some "aaacfc1011b2c05491415c34d674be00fdb8786385e21e325bf1154079acd934".
Proof. repeat split; vm_compute; reflexivity. Qed.

(** C8, amended.  The fingerprint is the same for a snapshot and a
    perturbed copy when every perturbed reading keeps its sign and stays
    in its rounding cell, that is strictly within 0.005 of the same
    multiple of 0.01 for a latitude or longitude and strictly within
    0.00005 of the same multiple of 0.0001 for the flux, and when the
    timestamp, if it changes, parses before and after into the same
    date, hour, UTC offset and tens of minutes.  The size of the
    perturbation alone does not decide it. *)
Theorem C8_fingerprint_stable
    (fromisoformat : string -> option Datetime.t) (a a' : Snapshot.t) :
  close_snapshot fromisoformat a a' ->
  ProofOfAstronomy.calculate_astronomical_consensus fromisoformat a
  = ProofOfAstronomy.calculate_astronomical_consensus fromisoformat a'.
Proof.
  intros H. unfold ProofOfAstronomy.calculate_astronomical_consensus.
  rewrite (consensus_components_close fromisoformat a a' H). reflexivity.
Qed.

Lemma C8_fingerprint_stable_witness :
  ProofOfAstronomy.calculate_astronomical_consensus Iso.fromisoformat
    (observed_at (PyFloat.of_decimal false 36386 (-3))
                 (PyFloat.of_decimal false 18262 (-5))
                 (Some "2024-01-02T03:04:05.123") None)
  = ProofOfAstronomy.calculate_astronomical_consensus Iso.fromisoformat
      (observed_at (PyFloat.of_decimal false 36394 (-3))
                   (PyFloat.of_decimal false 18258 (-5))
                   (Some "2024-01-02T03:09:59") None).
Proof.
  apply (C8_fingerprint_stable Iso.fromisoformat).
  split.
  - constructor. split; constructor.
    + split.
      * exists (PyFloat.of_decimal false 36386 (-3)),
               (PyFloat.of_decimal false 36394 (-3)), false, 3639.
        repeat split; vm_compute; reflexivity.
      * exists (PyFloat.of_decimal false 17377 (-2)),
               (PyFloat.of_decimal false 17377 (-2)), false, 17377.
        repeat split; vm_compute; reflexivity.
    + exists (PyFloat.of_decimal false 18262 (-5)),
             (PyFloat.of_decimal false 18258 (-5)), false, 1826.
      repeat split; vm_compute; reflexivity.
  - right.
    exists "2024-01-02T03:04:05.123", "2024-01-02T03:09:59",
           (Datetime.mk 2024 1 2 3 4 5 123000 None),
           (Datetime.mk 2024 1 2 3 9 59 0 None).
    repeat split; try discriminate; vm_compute; reflexivity.
Defined.

(** * Further properties of the ledger *)

Section Runs.

Import AstroBlockchain.

Lemma run_snoc now0 (ops : list op) (o : op) :
  run now0 (ops ++ [o]) = run now0 ops ≫= fun s => step s o.
Proof.
  unfold run. rewrite foldM_app. simpl.
  destruct (foldM step ops (init now0)) as [s|]; simpl; [|reflexivity].
  destruct (step s o); reflexivity.
Qed.

Lemma step_reachable (s s' : t) (o : op) :
  reachable s -> step s o = Some s' -> reachable s'.
Proof.
  intros Hr. destruct o as [tx|now snapshot]; simpl.
  - intros [= <-]. constructor. exact Hr.
  - destruct (create_block now snapshot s) as [[b s'']|] eqn:E; [|discriminate].
    simpl. intros [= <-]. eapply reach_create; eassumption.
Qed.

Lemma step_some (s : t) (o : op) :
  chain s <> [] -> exists s', step s o = Some s'.
Proof.
  intros Hne. destruct o as [tx|now snapshot]; simpl; [eauto|].
  destruct (get_latest_block_some s Hne) as [latest Hl].
  rewrite (create_block_some now snapshot s latest Hl). simpl. eauto.
Qed.

(** No call on a ledger raises, and every run ends in a reachable
    ledger. *)
Lemma run_reachable now0 (ops : list op) :
  exists s, run now0 ops = Some s /\ reachable s.
Proof.
  induction ops as [|o ops IH] using rev_ind.
  - exists (init now0). split; [reflexivity | constructor].
  - destruct IH as (s & Hs & Hr). rewrite run_snoc, Hs. simpl.
    destruct (step_some s o (reachable_nonempty s Hr)) as [s' Hs'].
    exists s'. split; [exact Hs' | eapply step_reachable; eassumption].
Qed.

Lemma reachable_run (s : t) :
  reachable s -> exists now0 ops, run now0 ops = Some s.
Proof.
  induction 1 as [now | tx s _ IH | now snapshot s b s' _ IH Hc].
  - exists now, []. reflexivity.
  - destruct IH as (now0 & ops & Hs). exists now0, (ops ++ [Add tx]).
    rewrite run_snoc, Hs. reflexivity.
  - destruct IH as (now0 & ops & Hs).
    exists now0, (ops ++ [Create now snapshot]).
    rewrite run_snoc, Hs. simpl. rewrite Hc. reflexivity.
Qed.

End Runs.

Section RunFacts.

Import AstroBlockchain.

Lemma added_snoc (ops : list op) (o : op) :
  added (ops ++ [o])
  = added ops ++ match o with Add tx => [tx] | Create _ _ => [] end.
Proof.
  unfold added. rewrite flat_map_app. simpl. rewrite app_nil_r. reflexivity.
Qed.

Lemma created_snoc (ops : list op) (o : op) :
  created (ops ++ [o])
  = (created ops + match o with Add _ => 0 | Create _ _ => 1 end)%nat.
Proof.
  induction ops as [|[tx|now snapshot] ops IH]; simpl.
  - destruct o; reflexivity.
  - exact IH.
  - rewrite IH. reflexivity.
Qed.

Lemma added_since_create_snoc (ops : list op) (o : op) :
  forall pending,
    added_since_create (ops ++ [o]) pending
    = match o with
      | Add tx => added_since_create ops pending ++ [tx]
      | Create _ _ => []
      end.
Proof.
  induction ops as [|[tx|now snapshot] ops IH]; intros pending; simpl.
  - destruct o; reflexivity.
  - apply IH.
  - apply IH.
Qed.

(** What every run keeps: the stored and pending transactions are the
    added ones, the pool holds those added since the last block, the
    chain has one block per [create_block] call after the genesis block,
    and the genesis block stays first. *)
Lemma run_invariants now0 (ops : list op) (s : t) :
  run now0 ops = Some s ->
  all_transactions s ++ pending_transactions s = added ops
  /\ pending_transactions s = added_since_create ops []
  /\ length (chain s) = S (created ops)
  /\ chain s !! 0%nat = Some (Block.init now0 0 [] "0" genesis_astronomical_data).
Proof.
  revert s. induction ops as [|o ops IH] using rev_ind; intros s Hs.
  - injection Hs as <-. repeat split.
  - rewrite run_snoc in Hs.
    destruct (run now0 ops) as [s0|] eqn:E0; [|discriminate]. simpl in Hs.
    destruct (IH s0 eq_refl) as (Hall & Hpend & Hlen & Hgen).
    rewrite added_snoc, created_snoc, added_since_create_snoc.
    destruct o as [tx|now snapshot]; simpl in Hs.
    + injection Hs as <-. simpl. repeat split.
      * unfold all_transactions in *. simpl.
        rewrite app_assoc, Hall. reflexivity.
      * rewrite Hpend. reflexivity.
      * lia.
      * exact Hgen.
    + destruct (create_block now snapshot s0) as [[b s']|] eqn:Ec;
        [|discriminate].
      simpl in Hs. injection Hs as <-.
      apply create_block_inv in Ec as (latest & Hl & Hb & ->). simpl.
      repeat split.
      * unfold all_transactions in *. simpl.
        rewrite flat_map_app. simpl. rewrite !app_nil_r.
        rewrite Hb at 1. simpl. exact Hall.
      * rewrite length_app. simpl. lia.
      * rewrite lookup_app_l; [exact Hgen|]. lia.
Qed.

End RunFacts.

(** X1. Whatever calls are made on a new ledger, none raises, and
    afterwards the transactions stored in the blocks, read in chain
    order, followed by the pending pool are exactly the transactions
    that were added, in the order they were added: none is lost,
    duplicated or reordered. *)
Theorem X1_transactions_conserved now0 (ops : list op) :
  exists s,
    run now0 ops = Some s
    /\ all_transactions s ++ AstroBlockchain.pending_transactions s
       = added ops.
Proof.
  destruct (run_reachable now0 ops) as (s & Hs & _).
  exists s. split; [exact Hs|]. apply (run_invariants now0 ops s Hs).
Qed.

(** X2. After any calls on a new ledger, [get_chain_info] does not
    raise; it reports a length of one plus the number of [create_block]
    calls, the serialized last block, as pending count the number of
    transactions added since the last [create_block], and a valid
    chain. *)
Theorem X2_chain_info now0 (ops : list op) :
  exists s latest,
    run now0 ops = Some s
    /\ AstroBlockchain.get_latest_block s = Some latest
    /\ get_chain_info s
       = Some (ChainInfo.mk (Z.of_nat (S (created ops)))
                            (BlockData.of_block latest)
                            (Z.of_nat (length (added_since_create ops [])))
                            true).
Proof.
  destruct (run_reachable now0 ops) as (s & Hs & Hr).
  destruct (get_latest_block_some s (reachable_nonempty s Hr)) as [latest Hl].
  exists s, latest. split; [exact Hs|]. split; [exact Hl|].
  destruct (run_invariants now0 ops s Hs) as (_ & Hpend & Hlen & _).
  unfold get_chain_info. rewrite Hl. simpl.
  rewrite (reachable_valid s Hr), Hlen, Hpend. reflexivity.
Qed.

Section BlockInvariants.

Import AstroBlockchain.

(** What [Block.__init__] establishes for the block numbered [i]. *)
Lemma init_block_facts now (i : nat) txs prev snapshot :
  let b := Block.init now (Z.of_nat i) txs prev snapshot in
  Block.index b = Z.of_nat i
  /\ Block.nonce b = 0
  /\ Block.hash b = Block.calculate_hash b
  /\ Block.merkle_root b = Block.calculate_merkle_root b
  /\ Block.astronomical_hash b
     = Snapshot.get_or_empty
         (Snapshot.astronomical_hash (Block.astronomical_data b)).
Proof. repeat split. Qed.

Lemma reachable_blocks (s : t) :
  reachable s ->
  forall (i : nat) (b : Block.t),
    chain s !! i = Some b ->
    Block.index b = Z.of_nat i
    /\ Block.nonce b = 0
    /\ Block.hash b = Block.calculate_hash b
    /\ Block.merkle_root b = Block.calculate_merkle_root b
    /\ Block.astronomical_hash b
       = Snapshot.get_or_empty
           (Snapshot.astronomical_hash (Block.astronomical_data b)).
Proof.
  induction 1 as [now | tx s _ IH | now snapshot s b s' _ IH Hc];
    intros i blk Hi.
  - destruct i as [|i]; [|discriminate]. simpl in Hi. injection Hi as <-.
    apply (init_block_facts now 0).
  - apply IH. exact Hi.
  - apply create_block_inv in Hc as (latest & _ & Hb & ->). simpl in Hi.
    destruct (decide (i < length (chain s))%nat) as [Hlt|Hge].
    + rewrite lookup_app_l in Hi by exact Hlt. apply IH. exact Hi.
    + rewrite lookup_app_r in Hi by lia.
      destruct (i - length (chain s))%nat as [|k] eqn:Ek; [|discriminate].
      simpl in Hi. injection Hi as <-.
      assert (i = length (chain s)) as -> by lia.
      subst b. apply init_block_facts.
Qed.

End BlockInvariants.

(** X3. In every ledger built by [add_transaction] and [create_block],
    the block stored at position [i] carries index [i] and nonce 0: the
    indices count up from the genesis block without gap, and nothing
    ever sets a nonce. *)
Theorem X3_blocks_numbered (s : AstroBlockchain.t) (i : nat) (b : Block.t) :
  reachable s ->
  AstroBlockchain.chain s !! i = Some b ->
  Block.index b = Z.of_nat i /\ Block.nonce b = 0.
Proof.
  intros Hr Hi.
  destruct (reachable_blocks s Hr i b Hi) as (H1 & H2 & _).
  split; assumption.
Qed.

Lemma X3_blocks_numbered_witness :
  Block.index (paid_block (Int 50)) = Z.of_nat 1
  /\ Block.nonce (paid_block (Int 50)) = 0.
Proof.
  apply (X3_blocks_numbered paid_ledger 1 (paid_block (Int 50))).
  - exact (reachable_ledger_of [payment (Int 50)]).
  - vm_compute. reflexivity.
Defined.

(** X4. In every ledger built by [add_transaction] and [create_block],
    every stored block, the genesis block included, satisfies what its
    constructor set up: the stored hash is the recomputed hash, the
    stored Merkle root is the root recomputed from the stored
    transactions, and the stored fingerprint is the one recorded in the
    anchored snapshot (the empty string when the snapshot has none). *)
Theorem X4_blocks_consistent (s : AstroBlockchain.t) (i : nat) (b : Block.t) :
  reachable s ->
  AstroBlockchain.chain s !! i = Some b ->
  Block.hash b = Block.calculate_hash b
  /\ Block.merkle_root b = Block.calculate_merkle_root b
  /\ Block.astronomical_hash b
     = Snapshot.get_or_empty
         (Snapshot.astronomical_hash (Block.astronomical_data b)).
Proof.
  intros Hr Hi.
  destruct (reachable_blocks s Hr i b Hi) as (_ & _ & H3 & H4 & H5).
  repeat split; assumption.
Qed.

Lemma X4_blocks_consistent_witness :
  Block.hash genesis_block = Block.calculate_hash genesis_block
  /\ Block.merkle_root genesis_block = Block.calculate_merkle_root genesis_block
  /\ Block.astronomical_hash genesis_block
     = Snapshot.get_or_empty
         (Snapshot.astronomical_hash (Block.astronomical_data genesis_block)).
Proof.
  apply (X4_blocks_consistent paid_ledger 0 genesis_block).
  - exact (reachable_ledger_of [payment (Int 50)]).
  - vm_compute. reflexivity.
Defined.

(** X5. The first block of the chain is the genesis block made by the
    constructor, whatever calls follow: index 0, previous hash ["0"], no
    transactions, the Merkle root of the empty list and the fingerprint
    of 64 zeros. *)
Theorem X5_genesis_stays now0 (ops : list op) :
  exists s g,
    run now0 ops = Some s
    /\ AstroBlockchain.chain s !! 0%nat = Some g
    /\ AstroBlockchain.chain (AstroBlockchain.init now0) = [g]
    /\ Block.index g = 0
    /\ Block.previous_hash g = "0"
    /\ Block.transactions g = []
    /\ Block.merkle_root g = sha256_hex ""
    /\ Block.astronomical_hash g
       = "0000000000000000000000000000000000000000000000000000000000000000".
Proof.
  destruct (run_reachable now0 ops) as (s & Hs & _).
  destruct (run_invariants now0 ops s Hs) as (_ & _ & _ & Hg).
  exists s, (Block.init now0 0 [] "0" AstroBlockchain.genesis_astronomical_data).
  split; [exact Hs|]. split; [exact Hg|]. repeat split.
Qed.

(** * Further properties of balances *)

Section MoreBalances.

Import AstroBlockchain.

Lemma foldM_unmentioned (address : string) (txs : list Transaction.t)
    (balance : number) :
  forallb (fun tx => negb (String.eqb (Transaction.from_address tx) address)
                     && negb (String.eqb (Transaction.to_address tx) address))
          txs = true ->
  foldM (balance_step address) txs balance = Some balance.
Proof.
  induction txs as [|tx txs IH]; simpl; intros H; [reflexivity|].
  apply andb_true_iff in H as [Htx H].
  apply andb_true_iff in Htx as [Hf Ht].
  unfold balance_step.
  destruct (String.eqb (Transaction.from_address tx) address); [discriminate|].
  destruct (String.eqb (Transaction.to_address tx) address); [discriminate|].
  simpl. apply IH, H.
Qed.

(** A balance that is [0] or a [float] stays so through a [float]
    amount, and the step does not raise. *)
Lemma balance_step_float (address : string) (tx : Transaction.t)
    (balance : number) :
  is_int (Transaction.amount tx) = false ->
  balance = Int 0 \/ (exists f, balance = Float f) ->
  exists r, balance_step address balance tx = Some r
            /\ (r = Int 0 \/ exists f, r = Float f).
Proof.
  intros Ha Hb. unfold balance_step.
  destruct (Transaction.amount tx) as [z|a]; [discriminate|].
  destruct (String.eqb (Transaction.from_address tx) address);
    destruct (String.eqb (Transaction.to_address tx) address);
    destruct Hb as [->|[f ->]]; simpl; eauto.
Qed.

Lemma foldM_floats (address : string) (txs : list Transaction.t)
    (balance : number) :
  forallb (fun tx => negb (is_int (Transaction.amount tx))) txs = true ->
  balance = Int 0 \/ (exists f, balance = Float f) ->
  exists r, foldM (balance_step address) txs balance = Some r
            /\ (r = Int 0 \/ exists f, r = Float f).
Proof.
  revert balance. induction txs as [|tx txs IH]; simpl; intros balance H Hb.
  - eauto.
  - apply andb_true_iff in H as [Htx H]. apply negb_true_iff in Htx.
    destruct (balance_step_float address tx balance Htx Hb) as (r & -> & Hr).
    simpl. apply IH; assumption.
Qed.

End MoreBalances.

(** X6. The balance of an address that no stored transaction names as
    sender or receiver is the [int] 0, whatever the amounts stored; the
    computation does not raise. *)
Theorem X6_unmentioned_balance (s : AstroBlockchain.t) (address : string) :
  unmentioned address s = true ->
  AstroBlockchain.get_balance s address = Some (Int 0).
Proof.
  intros H. rewrite get_balance_flat. apply foldM_unmentioned, H.
Qed.

Lemma X6_unmentioned_balance_witness :
  AstroBlockchain.get_balance float_ledger "dave" = Some (Int 0).
Proof.
  apply (X6_unmentioned_balance float_ledger "dave").
  vm_compute. reflexivity.
Defined.

(** X7. [get_balance] does not raise on a ledger whose stored amounts
    are all [float]s: the balance is the [int] 0 (no transaction names
    the address) or a [float].  (It can raise [OverflowError] when an
    [int] too large for a [float] meets a [float],
    [mixed_balance_raises].) *)
Theorem X7_float_balance_total (s : AstroBlockchain.t) (address : string) :
  all_floats s = true ->
  AstroBlockchain.get_balance s address = Some (Int 0)
  \/ exists f, AstroBlockchain.get_balance s address = Some (Float f).
Proof.
  intros H. rewrite get_balance_flat.
  destruct (foldM_floats address (all_transactions s) (Int 0) H)
    as (r & -> & [->|[f ->]]); eauto.
Qed.

Lemma X7_float_balance_total_witness :
  AstroBlockchain.get_balance float_ledger "alice" = Some (Int 0)
  \/ exists f, AstroBlockchain.get_balance float_ledger "alice" = Some (Float f).
Proof.
  apply (X7_float_balance_total float_ledger "alice").
  vm_compute. reflexivity.
Defined.

(** An [int] amount of [10 ^ 400] followed by a [float] amount to the
    same address: the second addition raises. *)
Example mixed_balance_raises :
  AstroBlockchain.get_balance
    (ledger_of [transfer "alice" "bob" (Int (10 ^ 400));
                transfer "alice" "bob" (Float tenth)]) "bob" = None.
Proof. vm_compute. reflexivity. Qed.

(** * Further properties of the Merkle root *)

Section MerkleDuplication.

Import Block.

Lemma merkle_loop_step (l : list string) :
  (1 < length l)%nat -> merkle_loop l = merkle_loop (merkle_pass l).
Proof.
  intros Hl. rewrite merkle_loop_equation_1.
  destruct (le_lt_dec (length l) 1) as [Hle|Hgt]; [lia|].
  apply merkle_loop_clause_1_equation_2.
Qed.

Lemma merkle_loop_stop (l : list string) :
  (length l <= 1)%nat -> merkle_loop l = l.
Proof.
  intros Hl. rewrite merkle_loop_equation_1.
  destruct (le_lt_dec (length l) 1) as [Hle|Hgt]; [reflexivity | lia].
Qed.

Lemma duplicate_last_odd (hs : list string) (h : string) :
  (length hs mod 2 = 0)%nat ->
  duplicate_last (hs ++ [h]) = hs ++ [h; h].
Proof.
  intros Heven. unfold duplicate_last.
  rewrite length_app. simpl length.
  replace ((length hs + 1) mod 2 =? 1)%nat with true.
  - rewrite List.last_last, <- app_assoc. reflexivity.
  - symmetry. apply Nat.eqb_eq.
    rewrite <- Nat.Div0.add_mod_idemp_l, Heven. reflexivity.
Qed.

Lemma duplicate_last_even (hs : list string) (h : string) :
  (length hs mod 2 = 0)%nat ->
  duplicate_last (hs ++ [h; h]) = hs ++ [h; h].
Proof.
  intros Heven. unfold duplicate_last.
  rewrite length_app. simpl length.
  replace ((length hs + 2) mod 2 =? 1)%nat with false; [reflexivity|].
  symmetry. apply Nat.eqb_neq.
  rewrite <- Nat.Div0.add_mod_idemp_l, Heven. simpl. discriminate.
Qed.

End MerkleDuplication.

(** X8. A block of an odd number of at least three transactions has the
    Merkle root of the block that lists, after them, one more
    transaction with the hash of the last: the root does not tell the
    two lists apart. *)
Theorem X8_merkle_duplication (txs : list Transaction.t)
    (tx tx' : Transaction.t) :
  txs <> [] ->
  (length txs mod 2 = 0)%nat ->
  Transaction.tx_hash tx' = Transaction.tx_hash tx ->
  Block.calculate_merkle_root_of (txs ++ [tx])
  = Block.calculate_merkle_root_of (txs ++ [tx; tx']).
Proof.
  intros Hne Heven Hh.
  destruct txs as [|t0 txs]; [contradiction|].
  unfold Block.calculate_merkle_root_of. simpl app.
  change (t0 :: txs ++ [tx]) with ((t0 :: txs) ++ [tx]).
  change (t0 :: txs ++ [tx; tx']) with ((t0 :: txs) ++ [tx; tx']).
  destruct ((t0 :: txs) ++ [tx]) eqn:E1; [destruct txs; discriminate|].
  destruct ((t0 :: txs) ++ [tx; tx']) eqn:E2; [destruct txs; discriminate|].
  rewrite <- E1, <- E2. clear E1 E2.
  rewrite !map_app. simpl map. rewrite Hh.
  assert (length (map Transaction.tx_hash (t0 :: txs)) mod 2 = 0)%nat as Hm
    by (rewrite length_map; exact Heven).
  rewrite (merkle_loop_step (_ ++ [_]))
    by (rewrite length_app; simpl; lia).
  rewrite (merkle_loop_step (_ ++ [_; _]))
    by (rewrite length_app; simpl; lia).
  unfold Block.merkle_pass.
  rewrite duplicate_last_odd, duplicate_last_even by exact Hm.
  reflexivity.
Qed.

Lemma X8_merkle_duplication_witness :
  Block.calculate_merkle_root_of
    ([transfer "alice" "bob" (Int 100); transfer "bob" "charlie" (Int 50)]
       ++ [transfer "charlie" "alice" (Int 25)])
  = Block.calculate_merkle_root_of
      ([transfer "alice" "bob" (Int 100); transfer "bob" "charlie" (Int 50)]
         ++ [transfer "charlie" "alice" (Int 25);
             transfer "charlie" "alice" (Int 25)]).
Proof.
  apply (X8_merkle_duplication
           [transfer "alice" "bob" (Int 100); transfer "bob" "charlie" (Int 50)]
           (transfer "charlie" "alice" (Int 25))
           (transfer "charlie" "alice" (Int 25))).
  - discriminate.
  - reflexivity.
  - reflexivity.
Defined.

(** * Further properties of the consensus gate *)

(** ** Digests are 64 characters long *)

Lemma string_length_app (a b : string) :
  String.length (a +++ b) = (String.length a + String.length b)%nat.
Proof. induction a as [|c a IH]; simpl; [reflexivity | rewrite IH; reflexivity]. Qed.

Lemma compress_length (h blk : list Z) :
  length h = 8%nat -> length (Sha256.compress h blk) = 8%nat.
Proof.
  intros Hh. unfold Sha256.compress.
  rewrite length_map, length_combine, Hh. reflexivity.
Qed.

Lemma blocks_length (fuel : nat) : forall ws h,
  length h = 8%nat -> length (Sha256.blocks fuel ws h) = 8%nat.
Proof.
  induction fuel as [|k IH]; intros ws h Hh; simpl; [exact Hh|].
  destruct ws; [exact Hh|]. apply IH, compress_length, Hh.
Qed.

Lemma hexdigest_length (ws : list Z) :
  String.length (fold_right (fun w acc => Sha256.hex_of_word w +++ acc) "" ws)
  = (8 * length ws)%nat.
Proof.
  induction ws as [|w ws IH]; [reflexivity|].
  cbn [fold_right]. rewrite string_length_app, IH.
  change (String.length (Sha256.hex_of_word w)) with 8%nat. simpl length. lia.
Qed.

Lemma sha256_hex_length (s : string) : String.length (sha256_hex s) = 64%nat.
Proof.
  unfold sha256_hex, Sha256.hexdigest. rewrite hexdigest_length.
  unfold Sha256.digest. rewrite blocks_length; reflexivity.
Qed.

Lemma prefix_length (p s : string) :
  String.prefix p s = true -> (String.length p <= String.length s)%nat.
Proof.
  intros H. apply prefix_app in H as [rest ->].
  rewrite string_length_app. lia.
Qed.

(** ** Stamping a snapshot and validating the block made from it *)

Section Stamping.

Import ProofOfAstronomy.

Variable fromisoformat : string -> option Datetime.t.

(** The fingerprint reads the sources and the timestamp only. *)
Lemma consensus_components_stamp (h : string) (a : Snapshot.t) :
  consensus_components fromisoformat (stamp h a)
  = consensus_components fromisoformat a.
Proof. reflexivity. Qed.

Lemma calculate_stamp (h : string) (a : Snapshot.t) :
  calculate_astronomical_consensus fromisoformat (stamp h a)
  = calculate_astronomical_consensus fromisoformat a.
Proof. reflexivity. Qed.

Lemma calculate_length (a : Snapshot.t) (h : string) :
  calculate_astronomical_consensus fromisoformat a = Some h ->
  String.length h = 64%nat.
Proof.
  unfold calculate_astronomical_consensus.
  destruct (consensus_components fromisoformat a); [|discriminate].
  simpl. intros [= <-]. apply sha256_hex_length.
Qed.

End Stamping.

(** X9. The flow of the demo: when the fingerprint of a snapshot is
    computed, stored in the snapshot under ["astronomical_hash"], and a
    block is created from the stamped snapshot, the block carries that
    fingerprint and its serialized form passes
    [validate_astronomical_block]. *)
Theorem X9_stamped_block_validates
    (fromisoformat : string -> option Datetime.t)
    (self : ProofOfAstronomy.t) (now : Datetime.t)
    (snapshot : Snapshot.t) (s : AstroBlockchain.t) (h : string) :
  ProofOfAstronomy.calculate_astronomical_consensus fromisoformat snapshot
  = Some h ->
  AstroBlockchain.chain s <> [] ->
  exists b s',
    AstroBlockchain.create_block now (stamp h snapshot) s = Some (b, s')
    /\ Block.astronomical_hash b = h
    /\ ProofOfAstronomy.validate_astronomical_block fromisoformat self
         (BlockData.of_block b) = true.
Proof.
  intros Hh Hne.
  destruct (get_latest_block_some s Hne) as [latest Hl].
  eexists _, _. split; [apply create_block_some, Hl|].
  split; [reflexivity|].
  unfold ProofOfAstronomy.validate_astronomical_block. simpl.
  rewrite calculate_stamp, Hh. simpl.
  rewrite String.eqb_refl. reflexivity.
Qed.

Lemma X9_stamped_block_validates_witness :
  exists b s',
    AstroBlockchain.create_block ledger_clock
      (stamp "206b5f705d6ab27b84e75c5247dd9da76865491893bf9a44cf272ea7b3aa2737"
             (observed latitude_36_39 (Some "2024-01-02T03:04:05.123") None))
      paid_ledger = Some (b, s')
    /\ Block.astronomical_hash b
       = "206b5f705d6ab27b84e75c5247dd9da76865491893bf9a44cf272ea7b3aa2737"
    /\ ProofOfAstronomy.validate_astronomical_block Iso.fromisoformat demo_gate
         (BlockData.of_block b) = true.
Proof.
  apply (X9_stamped_block_validates Iso.fromisoformat demo_gate ledger_clock
           (observed latitude_36_39 (Some "2024-01-02T03:04:05.123") None)
           paid_ledger).
  - vm_compute. reflexivity.
  - discriminate.
Defined.

(** X10. A serialized block whose snapshot records a fingerprint that is
    not 64 characters long never passes
    [validate_astronomical_block]; in particular a snapshot without the
    ["astronomical_hash"] key, read as the empty string, never does. *)
Theorem X10_unstamped_block_invalid
    (fromisoformat : string -> option Datetime.t)
    (self : ProofOfAstronomy.t) (block_data : BlockData.t)
    (snapshot : Snapshot.t) :
  BlockData.astronomical_data block_data = Some snapshot ->
  String.length (Snapshot.get_or_empty (Snapshot.astronomical_hash snapshot))
  <> 64%nat ->
  ProofOfAstronomy.validate_astronomical_block fromisoformat self block_data
  = false.
Proof.
  intros Hd Hlen. unfold ProofOfAstronomy.validate_astronomical_block.
  rewrite Hd.
  destruct (ProofOfAstronomy.calculate_astronomical_consensus fromisoformat
              snapshot) as [h|] eqn:E; [|reflexivity].
  destruct (String.eqb_spec h
              (Snapshot.get_or_empty (Snapshot.astronomical_hash snapshot)))
    as [Heq|Hneq]; [|reflexivity].
  exfalso. apply Hlen. rewrite <- Heq.
  apply (calculate_length fromisoformat snapshot h E).
Qed.

Lemma X10_unstamped_block_invalid_witness :
  ProofOfAstronomy.validate_astronomical_block Iso.fromisoformat demo_gate
    (BlockData.of_block (paid_block (Int 50))) = false.
Proof.
  apply (X10_unstamped_block_invalid Iso.fromisoformat demo_gate
           (BlockData.of_block (paid_block (Int 50))) empty_snapshot).
  - vm_compute. reflexivity.
  - vm_compute. discriminate.
Defined.

(** ** When the fingerprint cannot be computed *)

Section Failure.

Import ProofOfAstronomy.

Variable fromisoformat : string -> option Datetime.t.




End Failure.


(** ** Timestamps with a trailing [Z] or a UTC offset *)

Section Cleaning.

Lemma append_empty_r (s : string) : s +++ "" = s.
Proof. induction s as [|c s IH]; simpl; [reflexivity | rewrite IH; reflexivity]. Qed.

(** [replace] copies the part of a string that lies before the first
    character with which an occurrence could start. *)
Lemma replace_after (c : ascii) (rest new s t : string) :
  contains_char c s = false ->
  replace (String c rest) new (s +++ t) = s +++ replace (String c rest) new t.
Proof.
  unfold replace. induction s as [|c' s IH]; [reflexivity|].
  cbn [contains_char]. intros H. apply orb_false_iff in H as [Hc Hs].
  apply Ascii.eqb_neq in Hc.
  cbn [String.append replace_from String.prefix].
  destruct (Ascii.ascii_dec c c') as [E|_]; [contradiction|].
  rewrite (IH Hs). reflexivity.
Qed.

Lemma replace_absent (c : ascii) (rest new s : string) :
  contains_char c s = false ->
  replace (String c rest) new s = s.
Proof.
  intros H. rewrite <- (append_empty_r s) at 1.
  rewrite (replace_after c rest new s "" H). apply append_empty_r.
Qed.

Lemma replace_z_trailing (s : string) :
  contains_char "Z" s = false -> replace "Z" "" (s +++ "Z") = s.
Proof.
  intros H. rewrite (replace_after "Z" "" "" s "Z" H). apply append_empty_r.
Qed.

Lemma clean_z_trailing (s : string) :
  contains_char "Z" s = false ->
  contains_char "+" s = false ->
  replace "+00:00" "" (replace "Z" "+00:00" (s +++ "Z")) = s.
Proof.
  intros Hz Hp. rewrite (replace_after "Z" "" "+00:00" s "Z" Hz).
  change (replace "Z" "+00:00" "Z") with "+00:00".
  rewrite (replace_after "+" "00:00" "" s "+00:00" Hp). apply append_empty_r.
Qed.

Lemma clean_plain (s : string) :
  contains_char "Z" s = false ->
  contains_char "+" s = false ->
  replace "+00:00" "" (replace "Z" "+00:00" s) = s.
Proof.
  intros Hz Hp. rewrite (replace_absent "Z" "" "+00:00" s Hz).
  apply (replace_absent "+" "00:00" "" s Hp).
Qed.

End Cleaning.

(** X12. A trailing [Z] on a timestamp that holds no other [Z] is
    ignored.  [is_time_for_new_block] gives the same answer with and
    without it (for a timestamp without [+]); and when the timestamp
    without the [Z] parses, the fingerprint is the same with and without
    it. *)
Theorem X12_trailing_z_ignored
    (fromisoformat : string -> option Datetime.t)
    (self : ProofOfAstronomy.t) (now : Datetime.t) (ts : string)
    type sources fingerprint :
  ts <> "" ->
  contains_char "Z" ts = false ->
  (contains_char "+" ts = false ->
   ProofOfAstronomy.is_time_for_new_block fromisoformat self now (ts +++ "Z")
   = ProofOfAstronomy.is_time_for_new_block fromisoformat self now ts)
  /\ (fromisoformat ts <> None ->
      ProofOfAstronomy.calculate_astronomical_consensus fromisoformat
        (Snapshot.mk type (Some (ts +++ "Z")) sources fingerprint)
      = ProofOfAstronomy.calculate_astronomical_consensus fromisoformat
          (Snapshot.mk type (Some ts) sources fingerprint)).
Proof.
  intros Hne Hz. split.
  - intros Hp. unfold ProofOfAstronomy.is_time_for_new_block.
    rewrite (clean_z_trailing ts Hz Hp), (clean_plain ts Hz Hp).
    destruct (String.eqb_spec ts "") as [|_]; [contradiction|].
    destruct ts; [contradiction | reflexivity].
  - intros Hparse.
    unfold ProofOfAstronomy.calculate_astronomical_consensus.
    rewrite !consensus_components_timestamp;
      [| exact Hne | destruct ts; [contradiction | discriminate]].
    unfold ProofOfAstronomy.time_component.
    rewrite (replace_z_trailing ts Hz), (replace_absent "Z" "" "" ts Hz).
    destruct (fromisoformat ts); [reflexivity | contradiction].
Qed.

Lemma X12_trailing_z_ignored_witness :
  ProofOfAstronomy.is_time_for_new_block Iso.fromisoformat demo_gate
    ledger_clock ("2024-01-02T02:54:05" +++ "Z")
  = ProofOfAstronomy.is_time_for_new_block Iso.fromisoformat demo_gate
      ledger_clock "2024-01-02T02:54:05"
  /\ ProofOfAstronomy.calculate_astronomical_consensus Iso.fromisoformat
       (Snapshot.mk None (Some ("2024-01-02T02:54:05" +++ "Z")) None None)
     = ProofOfAstronomy.calculate_astronomical_consensus Iso.fromisoformat
         (Snapshot.mk None (Some "2024-01-02T02:54:05") None None).
Proof.
  destruct (X12_trailing_z_ignored Iso.fromisoformat demo_gate ledger_clock
              "2024-01-02T02:54:05" None None None) as [Hgate Hprint].
  - discriminate.
  - vm_compute. reflexivity.
  - split.
    + apply Hgate. vm_compute. reflexivity.
    + apply Hprint. vm_compute. discriminate.
Defined.

(** X13. On a non-empty timestamp that parses, with the naive clock
    reading of [datetime.utcnow()]: when the parsed time is naive,
    [is_time_for_new_block] answers whether the time elapsed since it
    is at least the block interval; when the parsed time carries a UTC
    offset, the subtraction raises, the [except] catches it, and the
    answer is [True] whatever time has elapsed. *)
Theorem X13_time_gate
    (fromisoformat : string -> option Datetime.t)
    (self : ProofOfAstronomy.t) (now : Datetime.t) (ts : string)
    (last_time : Datetime.t) :
  ts <> "" ->
  fromisoformat (replace "+00:00" "" (replace "Z" "+00:00" ts)) = Some last_time ->
  Datetime.tzinfo now = None ->
  ProofOfAstronomy.is_time_for_new_block fromisoformat self now ts
  = match Datetime.tzinfo last_time with
    | None =>
        ProofOfAstronomy.block_interval self
        <=? Datetime.to_microseconds now - Datetime.to_microseconds last_time
    | Some _ => true
    end.
Proof.
  intros Hne Hparse Hnow. unfold ProofOfAstronomy.is_time_for_new_block.
  destruct (String.eqb_spec ts "") as [|_]; [contradiction|].
  rewrite Hparse. simpl. unfold Datetime.sub. rewrite Hnow.
  destruct (Datetime.tzinfo last_time); reflexivity.
Qed.

Lemma X13_time_gate_witness :
  ProofOfAstronomy.is_time_for_new_block Iso.fromisoformat demo_gate
    ledger_clock "2024-01-02T03:04:00+02:00"
  = match Datetime.tzinfo (Datetime.mk 2024 1 2 3 4 0 0 (Some 7200000000)) with
    | None =>
        ProofOfAstronomy.block_interval demo_gate
        <=? Datetime.to_microseconds ledger_clock
            - Datetime.to_microseconds
                (Datetime.mk 2024 1 2 3 4 0 0 (Some 7200000000))
    | Some _ => true
    end.
Proof.
  apply (X13_time_gate Iso.fromisoformat demo_gate ledger_clock
           "2024-01-02T03:04:00+02:00").
  - discriminate.
  - vm_compute. reflexivity.
  - reflexivity.
Defined.

(** The gate on concrete timestamps: five seconds after the last block
    it is not time; ten minutes after, it is; five seconds after a
    timestamp with a UTC offset, it is. *)
Example time_gate_runs :
  ProofOfAstronomy.is_time_for_new_block Iso.fromisoformat demo_gate
    ledger_clock "2024-01-02T03:04:00" = false
  /\ ProofOfAstronomy.is_time_for_new_block Iso.fromisoformat demo_gate
       ledger_clock "2024-01-02T02:54:05" = true
  /\ ProofOfAstronomy.is_time_for_new_block Iso.fromisoformat demo_gate
       ledger_clock "2024-01-02T03:04:00+02:00" = true
  /\ ProofOfAstronomy.is_time_for_new_block Iso.fromisoformat demo_gate
       ledger_clock "" = true.
Proof. vm_compute. auto. Qed.

(** ** The nonce search and the difficulty target *)

Section MoreNonce.

Import ProofOfAstronomy.

Lemma find_valid_nonce_from_more (self : t) (h : string) (r : nat) :
  forall (start n : Z) (r' : nat),
    find_valid_nonce_from self h start r = Some n ->
    (r <= r')%nat ->
    find_valid_nonce_from self h start r' = Some n.
Proof.
  induction r as [|r IH]; intros start n r' H Hle; simpl in H; [discriminate|].
  destruct r' as [|r']; [lia|]. simpl.
  destruct (admits self h start); [exact H|].
  apply IH; [exact H | lia].
Qed.

Lemma startswith_empty (s : string) : startswith s "" = true.
Proof. unfold startswith. destruct s; reflexivity. Qed.

Lemma startswith_long (s p : string) :
  (String.length s < String.length p)%nat -> startswith s p = false.
Proof.
  intros H. unfold startswith.
  destruct (String.prefix p s) eqn:E; [|reflexivity].
  apply prefix_length in E. lia.
Qed.

Lemma find_valid_nonce_from_none (self : t) (h : string) (r : nat) :
  forall start,
    (forall n, admits self h n = false) ->
    find_valid_nonce_from self h start r = None.
Proof.
  induction r as [|r IH]; intros start H; simpl; [reflexivity|].
  rewrite H. apply IH, H.
Qed.

End MoreNonce.

(** X14. A nonce found within a bound is the nonce found within every
    larger bound: searching again with a bigger budget cannot return a
    different nonce. *)
Theorem X14_larger_bound_same_nonce (self : ProofOfAstronomy.t)
    (consensus_hash : string) (max_attempts max_attempts' n : Z) :
  ProofOfAstronomy.find_valid_nonce self consensus_hash max_attempts = Some n ->
  max_attempts <= max_attempts' ->
  ProofOfAstronomy.find_valid_nonce self consensus_hash max_attempts' = Some n.
Proof.
  unfold ProofOfAstronomy.find_valid_nonce. intros H Hle.
  apply (find_valid_nonce_from_more self consensus_hash
           (Z.to_nat max_attempts) 0 n (Z.to_nat max_attempts') H).
  lia.
Qed.

Lemma X14_larger_bound_same_nonce_witness :
  ProofOfAstronomy.find_valid_nonce
    (ProofOfAstronomy.mk 600000000 None "0" "be249c040d6e4255")
    "206b5f705d6ab27b84e75c5247dd9da76865491893bf9a44cf272ea7b3aa2737" 50
  = Some 3.
Proof.
  apply (X14_larger_bound_same_nonce
           (ProofOfAstronomy.mk 600000000 None "0" "be249c040d6e4255")
           "206b5f705d6ab27b84e75c5247dd9da76865491893bf9a44cf272ea7b3aa2737"
           4 50 3).
  - vm_compute. reflexivity.
  - lia.
Defined.

(** X15. With an empty difficulty target every identity may create a
    block, and the nonce search returns 0 for every positive bound. *)
Theorem X15_empty_target (self : ProofOfAstronomy.t)
    (consensus_hash node_id : string) (max_attempts : Z) :
  ProofOfAstronomy.difficulty_target self = "" ->
  0 < max_attempts ->
  ProofOfAstronomy.can_create_block self consensus_hash node_id = true
  /\ ProofOfAstronomy.find_valid_nonce self consensus_hash max_attempts
     = Some 0.
Proof.
  intros Ht Hm. split.
  - unfold ProofOfAstronomy.can_create_block. rewrite Ht.
    apply startswith_empty.
  - unfold ProofOfAstronomy.find_valid_nonce.
    destruct (Z.to_nat max_attempts) as [|r] eqn:E; [lia|]. simpl.
    unfold ProofOfAstronomy.admits. rewrite Ht, startswith_empty.
    reflexivity.
Qed.

Lemma X15_empty_target_witness :
  ProofOfAstronomy.can_create_block
    (ProofOfAstronomy.mk 600000000 None "" "be249c040d6e4255")
    "206b5f705d6ab27b84e75c5247dd9da76865491893bf9a44cf272ea7b3aa2737"
    "be249c040d6e4255" = true
  /\ ProofOfAstronomy.find_valid_nonce
       (ProofOfAstronomy.mk 600000000 None "" "be249c040d6e4255")
       "206b5f705d6ab27b84e75c5247dd9da76865491893bf9a44cf272ea7b3aa2737" 10
     = Some 0.
Proof.
  apply (X15_empty_target
           (ProofOfAstronomy.mk 600000000 None "" "be249c040d6e4255")).
  - reflexivity.
  - lia.
Defined.

(** X16. With a difficulty target of more than 64 characters no
    identity may create a block and the nonce search finds nothing,
    whatever the bound: a digest has 64 characters. *)
Theorem X16_long_target (self : ProofOfAstronomy.t)
    (consensus_hash node_id : string) (max_attempts : Z) :
  (64 < String.length (ProofOfAstronomy.difficulty_target self))%nat ->
  ProofOfAstronomy.can_create_block self consensus_hash node_id = false
  /\ ProofOfAstronomy.find_valid_nonce self consensus_hash max_attempts = None.
Proof.
  intros Ht. split.
  - unfold ProofOfAstronomy.can_create_block.
    apply startswith_long. rewrite sha256_hex_length. exact Ht.
  - apply find_valid_nonce_from_none. intros n.
    unfold ProofOfAstronomy.admits, ProofOfAstronomy.candidate_hash.
    apply startswith_long. rewrite sha256_hex_length. exact Ht.
Qed.

Lemma X16_long_target_witness :
  ProofOfAstronomy.can_create_block
    (ProofOfAstronomy.mk 600000000 None
       "00000000000000000000000000000000000000000000000000000000000000000"
       "be249c040d6e4255")
    "206b5f705d6ab27b84e75c5247dd9da76865491893bf9a44cf272ea7b3aa2737"
    "be249c040d6e4255" = false
  /\ ProofOfAstronomy.find_valid_nonce
       (ProofOfAstronomy.mk 600000000 None
          "00000000000000000000000000000000000000000000000000000000000000000"
          "be249c040d6e4255")
       "206b5f705d6ab27b84e75c5247dd9da76865491893bf9a44cf272ea7b3aa2737"
       100000
     = None.
Proof.
  apply (X16_long_target
           (ProofOfAstronomy.mk 600000000 None
              "00000000000000000000000000000000000000000000000000000000000000000"
              "be249c040d6e4255")).
  vm_compute. lia.
Defined.

(** * Transactions *)

(** ** The order of strings *)

Lemma ascii_compare_lt_trans (a b c : ascii) :
  Ascii.compare a b = Lt -> Ascii.compare b c = Lt -> Ascii.compare a c = Lt.
Proof.
  unfold Ascii.compare. rewrite !N.compare_lt_iff. apply N.lt_trans.
Qed.

Lemma string_compare_lt_trans (s1 : string) : forall s2 s3,
  String.compare s1 s2 = Lt -> String.compare s2 s3 = Lt ->
  String.compare s1 s3 = Lt.
Proof.
  induction s1 as [|a s1 IH]; intros [|b s2] [|c s3]; simpl;
    try discriminate; try reflexivity.
  destruct (Ascii.compare a b) eqn:Eab; try discriminate;
    destruct (Ascii.compare b c) eqn:Ebc; try discriminate; intros H1 H2.
  - apply Ascii.compare_eq_iff in Eab, Ebc. subst.
    replace (Ascii.compare c c) with Eq
      by (symmetry; unfold Ascii.compare; apply N.compare_refl).
    eapply IH; eassumption.
  - apply Ascii.compare_eq_iff in Eab. subst. rewrite Ebc. reflexivity.
  - apply Ascii.compare_eq_iff in Ebc. subst. rewrite Eab. reflexivity.
  - rewrite (ascii_compare_lt_trans a b c Eab Ebc). reflexivity.
Qed.

Lemma leb_false_lt (s1 s2 : string) :
  String.leb s1 s2 = false -> String.compare s2 s1 = Lt.
Proof.
  unfold String.leb. rewrite String.compare_antisym.
  destruct (String.compare s2 s1); simpl; try discriminate; reflexivity.
Qed.

Lemma leb_true_ne_lt (s1 s2 : string) :
  String.leb s1 s2 = true -> s1 <> s2 -> String.compare s1 s2 = Lt.
Proof.
  unfold String.leb. destruct (String.compare s1 s2) eqn:E; try discriminate.
  - apply String.compare_eq_iff in E. contradiction.
  - reflexivity.
Qed.

Lemma lt_leb_false (s1 s2 : string) :
  String.compare s1 s2 = Lt -> String.leb s2 s1 = false.
Proof.
  unfold String.leb. rewrite (String.compare_antisym s2 s1).
  intros ->. reflexivity.
Qed.

Lemma lt_leb_true (s1 s2 : string) :
  String.compare s1 s2 = Lt -> String.leb s1 s2 = true.
Proof. unfold String.leb. intros ->. reflexivity. Qed.

(** Inserting two items with distinct keys commutes. *)
Lemma insert_item_comm (a b : string * string) (l : list (string * string)) :
  fst a <> fst b ->
  Json.insert_item a (Json.insert_item b l)
  = Json.insert_item b (Json.insert_item a l).
Proof.
  intros Hab. induction l as [|x l IH]; simpl.
  - destruct (String.leb (fst a) (fst b)) eqn:E1;
      destruct (String.leb (fst b) (fst a)) eqn:E2; try reflexivity.
    + exfalso. apply Hab. apply String.leb_antisym; assumption.
    + apply leb_false_lt in E1, E2.
      pose proof (string_compare_lt_trans _ _ _ E1 E2) as H.
      rewrite String.compare_antisym in E1. rewrite E2 in E1. discriminate.
  - destruct (String.leb (fst b) (fst x)) eqn:Ebx;
      destruct (String.leb (fst a) (fst x)) eqn:Eax; simpl;
      rewrite ?Ebx, ?Eax.
    + destruct (String.leb (fst a) (fst b)) eqn:E1;
        destruct (String.leb (fst b) (fst a)) eqn:E2; try reflexivity.
      * exfalso. apply Hab. apply String.leb_antisym; assumption.
      * apply leb_false_lt in E1, E2.
        rewrite String.compare_antisym in E1. rewrite E2 in E1. discriminate.
    + (* b <= x < a *)
      apply leb_false_lt in Eax.
      assert (String.leb (fst a) (fst b) = false) as ->.
      { destruct (String.leb (fst a) (fst b)) eqn:E; [|reflexivity].
        apply leb_true_ne_lt in E; [|exact Hab].
        destruct (String.eqb_spec (fst b) (fst x)) as [Ebx'|Hne].
        - rewrite Ebx' in E. rewrite String.compare_antisym, E in Eax.
          discriminate.
        - apply leb_true_ne_lt in Ebx; [|exact Hne].
          pose proof (string_compare_lt_trans _ _ _ E Ebx) as H.
          rewrite String.compare_antisym, H in Eax. discriminate. }
      simpl. try rewrite (lt_leb_false _ _ Eax). reflexivity.
    + (* a <= x < b *)
      apply leb_false_lt in Ebx.
      assert (String.leb (fst b) (fst a) = false) as ->.
      { destruct (String.leb (fst b) (fst a)) eqn:E; [|reflexivity].
        apply leb_true_ne_lt in E; [|congruence].
        destruct (String.eqb_spec (fst a) (fst x)) as [Eax'|Hne].
        - rewrite Eax' in E. rewrite String.compare_antisym, E in Ebx.
          discriminate.
        - apply leb_true_ne_lt in Eax; [|exact Hne].
          pose proof (string_compare_lt_trans _ _ _ E Eax) as H.
          rewrite String.compare_antisym, H in Ebx. discriminate. }
      simpl. try rewrite (lt_leb_false _ _ Ebx). reflexivity.
    + rewrite IH. reflexivity.
Qed.

Lemma sort_items_perm (l l' : list (string * string)) :
  Permutation l l' ->
  List.NoDup (map fst l) ->
  Json.sort_items l = Json.sort_items l'.
Proof.
  induction 1 as [|x l l' Hp IH|x y l|l l' l'' Hp1 IH1 Hp2 IH2]; intros Hnd.
  - reflexivity.
  - simpl. rewrite IH; [reflexivity|]. simpl in Hnd.
    apply List.NoDup_cons_iff in Hnd as [_ Hnd]. exact Hnd.
  - simpl. apply insert_item_comm. simpl in Hnd.
    apply List.NoDup_cons_iff in Hnd as [Hin _]. intros E. apply Hin.
    left. symmetry. exact E.
  - rewrite IH1 by exact Hnd. apply IH2.
    apply (Permutation_NoDup (Permutation_map fst Hp1) Hnd).
Qed.

Lemma string_append_assoc (a b c : string) : (a +++ b) +++ c = a +++ b +++ c.
Proof. induction a as [|x a IH]; simpl; [reflexivity | rewrite IH; reflexivity]. Qed.

(** The constructor on the first transaction of the demo, with a second
    entry in its auxiliary data. *)
Example transaction_hash_runs :
  Transaction.tx_hash
    (TransactionOps.init ledger_clock "astro_alice" "astro_bob"
       (Float (PyFloat.of_decimal false 100 0))
       (Some [("memo", "First AstroChain payment!"); ("kind", "demo")]))
  = "d02419db2286c50fab2bc5abe38099198469e59c3e832665d95cab2adee5be6a".
Proof. vm_compute. reflexivity. Qed.

(** X17. The hash of a constructed transaction does not depend on the
    order in which the entries of its auxiliary data were inserted: two
    [dict]s with the same entries give the same hash. *)
Theorem X17_data_order_irrelevant (now : Datetime.t)
    (from_address to_address : string) (amount : number)
    (data data' : list (string * string)) :
  Permutation data data' ->
  List.NoDup (map fst data) ->
  Transaction.tx_hash
    (TransactionOps.init now from_address to_address amount (Some data))
  = Transaction.tx_hash
      (TransactionOps.init now from_address to_address amount (Some data')).
Proof.
  intros Hp Hnd. unfold TransactionOps.init, TransactionOps.calculate_hash.
  simpl. unfold Json.dumps. rewrite (sort_items_perm data data' Hp Hnd).
  reflexivity.
Qed.

Lemma X17_data_order_irrelevant_witness :
  Transaction.tx_hash
    (TransactionOps.init ledger_clock "astro_alice" "astro_bob" (Int 100)
       (Some [("memo", "First AstroChain payment!"); ("kind", "demo")]))
  = Transaction.tx_hash
      (TransactionOps.init ledger_clock "astro_alice" "astro_bob" (Int 100)
         (Some [("kind", "demo"); ("memo", "First AstroChain payment!")])).
Proof.
  apply (X17_data_order_irrelevant ledger_clock "astro_alice" "astro_bob"
           (Int 100)).
  - apply perm_swap.
  - repeat constructor; simpl; intuition discriminate.
Defined.

(** X18. The hash of a transaction joins sender and receiver without a
    separator: a transfer from [a + b] to [c] and a transfer from [a]
    to [b + c], made at the same instant with the same amount and data,
    have the same hash. *)
Theorem X18_address_boundary (now : Datetime.t) (a b c : string)
    (amount : number) (data : option (list (string * string))) :
  Transaction.tx_hash (TransactionOps.init now (a +++ b) c amount data)
  = Transaction.tx_hash (TransactionOps.init now a (b +++ c) amount data).
Proof.
  unfold TransactionOps.init, TransactionOps.calculate_hash. simpl.
  rewrite !string_append_assoc. reflexivity.
Qed.

(** * Blocks whose hashed fields run into each other *)

(** X19. The block hash joins the Merkle root and the fingerprint
    without a separator.  In a ledger built by [add_transaction] and
    [create_block], moving leading characters of the stored fingerprint
    of a block to the end of its stored Merkle root leaves the
    recomputed hash as it was, and [is_chain_valid] still answers
    [True]. *)
Theorem X19_field_boundary (s : AstroBlockchain.t) (i : nat) (b : Block.t)
    (x rest : string) :
  reachable s ->
  AstroBlockchain.chain s !! i = Some b ->
  Block.astronomical_hash b = x +++ rest ->
  Block.calculate_hash (shift_boundary x rest b) = Block.calculate_hash b
  /\ AstroBlockchain.is_chain_valid (with_block i (shift_boundary x rest b) s)
     = true.
Proof.
  intros Hr Hb Hx.
  assert (Block.calculate_hash (shift_boundary x rest b)
          = Block.calculate_hash b) as Hc.
  { unfold Block.calculate_hash, shift_boundary. simpl.
    rewrite Hx, !string_append_assoc. reflexivity. }
  split; [exact Hc|].
  apply (with_block_valid s i b _ (reachable_valid s Hr) Hb).
  split.
  - intros Hi.
    destruct (reachable_links s Hr i) as (c & p & Hc' & Hp & Hh & Hk).
    { apply lookup_lt_Some in Hb. lia. }
    rewrite Hb in Hc'. injection Hc' as <-.
    split.
    + rewrite Hc. exact Hh.
    + exists p. split; [exact Hp | exact Hk].
  - intros _. reflexivity.
Qed.

Lemma X19_field_boundary_witness :
  Block.calculate_hash
    (shift_boundary "206b5f70"
       "5d6ab27b84e75c5247dd9da76865491893bf9a44cf272ea7b3aa2737"
       anchored_block)
  = Block.calculate_hash anchored_block
  /\ AstroBlockchain.is_chain_valid
       (with_block 1
          (shift_boundary "206b5f70"
             "5d6ab27b84e75c5247dd9da76865491893bf9a44cf272ea7b3aa2737"
             anchored_block)
          (AstroBlockchain.mk [genesis_block; anchored_block] []))
     = true.
Proof.
  apply (X19_field_boundary
           (AstroBlockchain.mk [genesis_block; anchored_block] []) 1
           anchored_block).
  - apply (reach_create ledger_clock anchored_snapshot
             (AstroBlockchain.init ledger_clock) anchored_block).
    + constructor.
    + vm_compute. reflexivity.
  - vm_compute. reflexivity.
  - vm_compute. reflexivity.
Defined.

(** * Credits and debits *)

Section Credits.

Lemma zsum_minus {A : Type} (f g : A -> Z) (l : list A) :
  zsum (fun x => f x - g x) l = zsum f l - zsum g l.
Proof. induction l as [|x l IH]; simpl; [reflexivity | rewrite IH; lia]. Qed.

End Credits.

(** X20. On a ledger whose stored amounts are all [int]s, the balance of
    an address is the sum of the amounts stored with it as receiver
    minus the sum of the amounts stored with it as sender; a transfer
    from an address to itself counts in both sums and cancels.  No
    check keeps a balance from going below zero. *)
Theorem X20_balance_credits_debits (s : AstroBlockchain.t) (address : string) :
  integral s = true ->
  AstroBlockchain.get_balance s address
  = Some (Int (received address s - sent address s)).
Proof.
  intros Hint. rewrite (get_balance_integral s address Hint).
  unfold received, sent. rewrite <- zsum_minus. reflexivity.
Qed.

Lemma X20_balance_credits_debits_witness :
  AstroBlockchain.get_balance scenario_ledger "alice"
  = Some (Int (received "alice" scenario_ledger - sent "alice" scenario_ledger)).
Proof.
  apply (X20_balance_credits_debits scenario_ledger "alice").
  vm_compute. reflexivity.
Defined.

(** * The demo *)

(** X21. The consensus step of the demo, on a fetched snapshot with at
    least one source whose fingerprint can be computed, reports that a
    block may be created exactly when the identity of the gate admits
    the fingerprint or the nonce search returns a nonce other than 0:
    when nonce 0 is the admitting one, [if nonce:] takes it for no
    nonce. *)
Theorem X21_demo_consensus
    (fromisoformat : string -> option Datetime.t)
    (consensus : ProofOfAstronomy.t) (now : Datetime.t)
    (fetched : Snapshot.t) (sources : Snapshot.Sources) (h : string) :
  Snapshot.sources fetched = Some sources ->
  AstroChainDemo.no_sources sources = false ->
  ProofOfAstronomy.calculate_astronomical_consensus fromisoformat fetched
  = Some h ->
  exists can_create,
    AstroChainDemo.demonstrate_astronomical_consensus fromisoformat consensus
      now fetched = Some (stamp h fetched, can_create)
    /\ (can_create = true
        <-> ProofOfAstronomy.can_create_block consensus h
              (ProofOfAstronomy.node_id consensus) = true
            \/ exists nonce,
                 ProofOfAstronomy.find_valid_nonce consensus h 100000
                 = Some nonce
                 /\ nonce <> 0).
Proof.
  intros Hs Hn Hh. unfold AstroChainDemo.demonstrate_astronomical_consensus.
  rewrite Hs. simpl. rewrite Hn, Hh. simpl.
  eexists. split; [reflexivity|].
  destruct (ProofOfAstronomy.can_create_block consensus h
              (ProofOfAstronomy.node_id consensus)); simpl.
  - split; auto.
  - destruct (ProofOfAstronomy.find_valid_nonce consensus h 100000) as [n|].
    + destruct (Z.eqb_spec n 0) as [->|Hne]; simpl.
      * split; [discriminate|].
        intros [H|(m & [= <-] & Hm)]; [discriminate | contradiction].
      * split; [intros _; right; eauto | reflexivity].
    + split; [discriminate|].
      intros [H|(m & Hm & _)]; discriminate.
Qed.

Lemma X21_demo_consensus_witness :
  exists can_create,
    AstroChainDemo.demonstrate_astronomical_consensus Iso.fromisoformat
      zero_nonce_gate ledger_clock
      (observed latitude_36_39 (Some "2024-01-02T03:04:05.123") None)
    = Some (stamp "206b5f705d6ab27b84e75c5247dd9da76865491893bf9a44cf272ea7b3aa2737"
                  (observed latitude_36_39 (Some "2024-01-02T03:04:05.123") None),
            can_create)
    /\ (can_create = true
        <-> ProofOfAstronomy.can_create_block zero_nonce_gate
              "206b5f705d6ab27b84e75c5247dd9da76865491893bf9a44cf272ea7b3aa2737"
              (ProofOfAstronomy.node_id zero_nonce_gate) = true
            \/ exists nonce,
                 ProofOfAstronomy.find_valid_nonce zero_nonce_gate
                   "206b5f705d6ab27b84e75c5247dd9da76865491893bf9a44cf272ea7b3aa2737"
                   100000
                 = Some nonce
                 /\ nonce <> 0).
Proof.
  eapply (X21_demo_consensus Iso.fromisoformat zero_nonce_gate ledger_clock
            (observed latitude_36_39 (Some "2024-01-02T03:04:05.123") None)).
  - reflexivity.
  - reflexivity.
  - vm_compute. reflexivity.
Defined.

(** The gate whose nonce 0 admits: the search finds 0, and the demo
    reports that no block may be created. *)
Example demo_overlooks_nonce_zero :
  ProofOfAstronomy.find_valid_nonce zero_nonce_gate
    "206b5f705d6ab27b84e75c5247dd9da76865491893bf9a44cf272ea7b3aa2737" 100000
  = Some 0
  /\ snd <$> AstroChainDemo.demonstrate_astronomical_consensus
               Iso.fromisoformat zero_nonce_gate ledger_clock
               (observed latitude_36_39 (Some "2024-01-02T03:04:05.123") None)
     = Some false.
Proof. vm_compute. auto. Qed.

(** X22. Whatever snapshot the consensus step of the demo returns, the
    block created from it on a ledger built by [add_transaction] and
    [create_block] passes the validation step of the demo: its
    fingerprint matches the recomputation and the chain is valid. *)
Theorem X22_demo_validates
    (fromisoformat : string -> option Datetime.t)
    (consensus : ProofOfAstronomy.t) (now now' : Datetime.t)
    (fetched astronomical_data : Snapshot.t) (can_create : bool)
    (blockchain : AstroBlockchain.t) :
  reachable blockchain ->
  AstroChainDemo.demonstrate_astronomical_consensus fromisoformat consensus
    now fetched = Some (astronomical_data, can_create) ->
  exists new_block blockchain',
    AstroBlockchain.create_block now' astronomical_data blockchain
    = Some (new_block, blockchain')
    /\ AstroChainDemo.demonstrate_validation fromisoformat consensus
         blockchain' new_block = true.
Proof.
  intros Hr Hd. unfold AstroChainDemo.demonstrate_astronomical_consensus in Hd.
  destruct (Snapshot.sources fetched) as [sources|]; [|discriminate].
  simpl in Hd.
  set (snapshot := if AstroChainDemo.no_sources sources
                   then AstroChainDemo.mock_snapshot now else fetched) in *.
  destruct (ProofOfAstronomy.calculate_astronomical_consensus fromisoformat
              snapshot) as [h|] eqn:Eh; [|discriminate].
  simpl in Hd. injection Hd as <- _.
  destruct (get_latest_block_some blockchain (reachable_nonempty _ Hr))
    as [latest Hl].
  eexists _, _. split; [apply create_block_some, Hl|].
  unfold AstroChainDemo.demonstrate_validation. apply andb_true_iff. split.
  - unfold ProofOfAstronomy.validate_astronomical_block. simpl.
    rewrite calculate_stamp, Eh. simpl. rewrite String.eqb_refl. reflexivity.
  - apply reachable_valid.
    eapply (reach_create now' (stamp h snapshot) blockchain);
      [exact Hr | apply create_block_some, Hl].
Qed.

Lemma X22_demo_validates_witness :
  exists new_block blockchain',
    AstroBlockchain.create_block ledger_clock
      (stamp "206b5f705d6ab27b84e75c5247dd9da76865491893bf9a44cf272ea7b3aa2737"
             (observed latitude_36_39 (Some "2024-01-02T03:04:05.123") None))
      scenario_ledger
    = Some (new_block, blockchain')
    /\ AstroChainDemo.demonstrate_validation Iso.fromisoformat zero_nonce_gate
         blockchain' new_block = true.
Proof.
  apply (X22_demo_validates Iso.fromisoformat zero_nonce_gate ledger_clock
           ledger_clock
           (observed latitude_36_39 (Some "2024-01-02T03:04:05.123") None)
           _ false scenario_ledger).
  - exact (reachable_ledger_of _).
  - vm_compute. reflexivity.
Defined.

(** ** Timestamps written and read back *)

Lemma digits_uint (d : Decimal.uint) : forall acc rest,
  Iso.digits (Decimal.nb_digits d) (NilEmpty.string_of_uint d +++ rest) acc
  = Some (uint_value d acc, rest).
Proof.
  induction d; intros acc rest; simpl; try reflexivity; apply IHd.
Qed.

Lemma uint_value_pos (d : Decimal.uint) : forall acc : positive,
  uint_value d (Zpos acc) = Zpos (Pos.of_uint_acc d acc).
Proof.
  induction d; intros acc; simpl; try reflexivity;
    match goal with
    | |- uint_value _ ?z = _ =>
        match goal with
        | |- _ = Zpos (Pos.of_uint_acc _ ?p) =>
            replace z with (Zpos p) by lia; apply IHd
        end
    end.
Qed.

Lemma uint_value_zero (d : Decimal.uint) :
  uint_value d 0 = Z.of_N (Pos.of_uint d).
Proof.
  induction d; simpl; try reflexivity; try exact IHd;
    apply (uint_value_pos d).
Qed.

Lemma uint_value_to_uint (p : positive) : uint_value (Pos.to_uint p) 0 = Zpos p.
Proof. rewrite uint_value_zero, DecimalPos.Unsigned.of_to. reflexivity. Qed.

Lemma uint_value_lower (d : Decimal.uint) : forall acc,
  0 <= acc -> acc * 10 ^ Z.of_nat (Decimal.nb_digits d) <= uint_value d acc.
Proof.
  induction d; intros acc Hacc; cbn [uint_value Decimal.nb_digits];
    [simpl; lia | ..];
    rewrite Nat2Z.inj_succ, Z.pow_succ_r by lia;
    (etransitivity; [|apply IHd; lia]);
    pose proof (Z.pow_nonneg 10 (Z.of_nat (Decimal.nb_digits d)) ltac:(lia));
    nia.
Qed.

Lemma nzhead_head (d : Decimal.uint) :
  match Decimal.nzhead d with
  | Decimal.D0 _ => False
  | _ => True
  end.
Proof. induction d; simpl; auto. Qed.

Lemma to_uint_head (p : positive) :
  match Pos.to_uint p with
  | Decimal.Nil | Decimal.D0 _ => False
  | _ => True
  end.
Proof.
  pose proof (DecimalPos.Unsigned.to_of (Pos.to_uint p)) as H.
  rewrite DecimalPos.Unsigned.of_to in H. simpl in H.
  pose proof (Unsigned.to_uint_nonzero p) as Hnz.
  pose proof (nzhead_head (Pos.to_uint p)) as Hh.
  unfold Decimal.unorm in H.
  destruct (Decimal.nzhead (Pos.to_uint p)) eqn:E; rewrite H; try exact I.
  - apply Hnz. exact H.
  - contradiction.
Qed.

Lemma uint_value_head (d : Decimal.uint) :
  match d with
  | Decimal.Nil | Decimal.D0 _ => False
  | _ => True
  end ->
  10 ^ (Z.of_nat (Decimal.nb_digits d) - 1) <= uint_value d 0.
Proof.
  destruct d; try contradiction; intros _;
    cbn [uint_value Decimal.nb_digits];
    rewrite Nat2Z.inj_succ;
    replace (Z.succ (Z.of_nat (Decimal.nb_digits d)) - 1)
      with (Z.of_nat (Decimal.nb_digits d)) by lia;
    (etransitivity; [|apply uint_value_lower; lia]);
    pose proof (Z.pow_nonneg 10 (Z.of_nat (Decimal.nb_digits d)) ltac:(lia));
    lia.
Qed.

Lemma to_uint_digits (p : positive) (w : nat) :
  Zpos p < 10 ^ Z.of_nat w -> (Decimal.nb_digits (Pos.to_uint p) <= w)%nat.
Proof.
  intros Hp.
  pose proof (uint_value_head (Pos.to_uint p) (to_uint_head p)) as H.
  rewrite uint_value_to_uint in H.
  destruct (le_lt_dec (Decimal.nb_digits (Pos.to_uint p)) w) as [|Hgt];
    [assumption|].
  exfalso.
  assert (10 ^ Z.of_nat w <= 10 ^ (Z.of_nat (Decimal.nb_digits (Pos.to_uint p)) - 1))
    by (apply Z.pow_le_mono_r; lia).
  lia.
Qed.

Lemma string_of_uint_length (d : Decimal.uint) :
  String.length (NilEmpty.string_of_uint d) = Decimal.nb_digits d.
Proof. induction d; simpl; congruence. Qed.

Lemma str_int_pos (p : positive) :
  str_int (Zpos p) = NilEmpty.string_of_uint (Pos.to_uint p).
Proof.
  unfold str_int. simpl.
  pose proof (Unsigned.to_uint_nonnil p) as H.
  destruct (Pos.to_uint p); [contradiction | reflexivity ..].
Qed.

Lemma digits_zeros (k n : nat) (s : string) :
  Iso.digits (k + n) (string_of_list_ascii (repeat "0"%char k) +++ s) 0
  = Iso.digits n s 0.
Proof. induction k as [|k IH]; simpl; [reflexivity | exact IH]. Qed.

(** A zero-padded field reads back as its value. *)
Lemma digits_zpad (w : nat) (v : Z) (rest : string) :
  (1 <= w)%nat -> 0 <= v < 10 ^ Z.of_nat w ->
  Iso.digits w (Datetime.zpad w v +++ rest) 0 = Some (v, rest).
Proof.
  intros Hw Hv. unfold Datetime.zpad.
  destruct v as [|p|p]; [| |lia].
  - change (str_int 0) with "0". simpl String.length.
    rewrite string_append_assoc.
    replace w with ((w - 1) + 1)%nat at 1 by lia.
    rewrite digits_zeros. reflexivity.
  - rewrite str_int_pos, string_of_uint_length.
    pose proof (to_uint_digits p w (proj2 Hv)) as Hn.
    rewrite string_append_assoc.
    replace w with ((w - Decimal.nb_digits (Pos.to_uint p))
                    + Decimal.nb_digits (Pos.to_uint p))%nat at 1 by lia.
    rewrite digits_zeros, digits_uint, uint_value_to_uint. reflexivity.
Qed.

Lemma contains_char_app (c : ascii) (a b : string) :
  contains_char c (a +++ b) = contains_char c a || contains_char c b.
Proof.
  induction a as [|x a IH]; simpl; [reflexivity|].
  rewrite IH, orb_assoc. reflexivity.
Qed.

Lemma contains_char_uint (c : ascii) (d : Decimal.uint) :
  Iso.digit c = None -> contains_char c (NilEmpty.string_of_uint d) = false.
Proof.
  intros Hc. induction d; simpl; [reflexivity | ..]; rewrite IHd;
    match goal with
    | |- (Ascii.eqb c ?x || false) = false =>
        destruct (Ascii.eqb_spec c x) as [->|_]; [discriminate Hc | reflexivity]
    end.
Qed.

Lemma contains_char_zeros (c : ascii) (k : nat) :
  Iso.digit c = None ->
  contains_char c (string_of_list_ascii (repeat "0"%char k)) = false.
Proof.
  intros Hc. induction k as [|k IH]; simpl; [reflexivity|]. rewrite IH.
  destruct (Ascii.eqb_spec c "0") as [->|_]; [discriminate Hc | reflexivity].
Qed.

Lemma contains_char_zpad (c : ascii) (w : nat) (v : Z) :
  Iso.digit c = None -> 0 <= v -> contains_char c (Datetime.zpad w v) = false.
Proof.
  intros Hc Hv. unfold Datetime.zpad.
  rewrite contains_char_app, contains_char_zeros by exact Hc.
  destruct v as [|p|p]; [| |lia].
  - change (str_int 0) with "0". simpl.
    destruct (Ascii.eqb_spec c "0") as [->|_]; [discriminate Hc | reflexivity].
  - rewrite str_int_pos. apply contains_char_uint, Hc.
Qed.


Lemma days_in_month_bound (y m : Z) : Iso.days_in_month y m <= 31.
Proof.
  unfold Iso.days_in_month.
  destruct ((m =? 2) && Datetime.is_leap y); [lia|].
  destruct (Z.to_nat (m - 1)) as [|[|[|[|[|[|[|[|[|[|[|[|[|n]]]]]]]]]]]]];
    simpl; try lia; destruct n; simpl; lia.
Qed.

Ltac read_field :=
  rewrite digits_zpad by (simpl; lia);
  cbn -[Datetime.zpad Iso.days_in_month Iso.digits Iso.clock Iso.fraction
        Z.leb Z.ltb Z.eqb].

(** [datetime.fromisoformat] reads back what [isoformat] wrote. *)
Lemma fromisoformat_isoformat (dt : Datetime.t) :
  valid_naive dt = true ->
  Iso.fromisoformat (Datetime.isoformat dt) = Some dt.
Proof.
  destruct dt as [y m d hh mm ss us tz]. unfold valid_naive. simpl.
  rewrite !andb_true_iff.
  intros [[[[[[[[[[[[[[Hy1 Hy2] Hm1] Hm2] Hd1] Hd2] Hh1] Hh2] Hmi1] Hmi2]
                  Hs1] Hs2] Hu1] Hu2] Htz].
  destruct tz; [discriminate|].
  pose proof (days_in_month_bound y m) as Hdim.
  unfold Iso.fromisoformat, Datetime.isoformat.
  cbn [Datetime.year Datetime.month Datetime.day Datetime.hour Datetime.minute
       Datetime.second Datetime.microsecond Datetime.tzinfo].
  do 3 read_field. unfold Iso.clock. do 3 read_field.
  destruct (Z.eqb_spec us 0) as [->|Hus].
  - cbn -[Iso.days_in_month Z.leb Z.ltb].
    rewrite Hy1, Hm1, Hm2, Hd1, Hd2, Hh2, Hmi2, Hs2. reflexivity.
  - cbn -[Datetime.zpad Iso.days_in_month Iso.digits Z.leb Z.ltb Z.eqb].
    unfold Iso.fraction. rewrite digits_zpad by (simpl; lia).
    cbn -[Iso.days_in_month Z.leb Z.ltb].
    rewrite Hy1, Hm1, Hm2, Hd1, Hd2, Hh2, Hmi2, Hs2. reflexivity.
Qed.

Lemma isoformat_plain (c : ascii) (dt : Datetime.t) :
  valid_naive dt = true ->
  Iso.digit c = None ->
  contains_char c "-T:." = false ->
  contains_char c (Datetime.isoformat dt) = false.
Proof.
  destruct dt as [y m d hh mm ss us tz]. unfold valid_naive. simpl.
  rewrite !andb_true_iff.
  intros [[[[[[[[[[[[[[Hy1 Hy2] Hm1] Hm2] Hd1] Hd2] Hh1] Hh2] Hmi1] Hmi2]
                  Hs1] Hs2] Hu1] Hu2] Htz] Hc Hsep.
  destruct tz; [discriminate|].
  simpl in Hsep. rewrite !orb_false_iff in Hsep.
  destruct Hsep as (Hdash & HT & Hcolon & Hdot & _).
  unfold Datetime.isoformat.
  cbn [Datetime.year Datetime.month Datetime.day Datetime.hour Datetime.minute
       Datetime.second Datetime.microsecond Datetime.tzinfo].
  destruct (negb (us =? 0));
    repeat (rewrite contains_char_app; rewrite ?contains_char_zpad by (exact Hc || lia));
    simpl; rewrite ?Hdash, ?HT, ?Hcolon, ?Hdot; reflexivity.
Qed.

Lemma isoformat_nonempty (dt : Datetime.t) : Datetime.isoformat dt <> "".
Proof.
  unfold Datetime.isoformat. intros H.
  apply (f_equal String.length) in H. rewrite string_length_app in H.
  unfold Datetime.zpad in H at 1. rewrite !string_length_app in H.
  simpl in H. lia.
Qed.

(** X23. The gate reads the timestamps the ledger writes.  For a block
    that [create_block] built when the clock read [created_at], a date
    and time of the calendar without offset, and a naive reading [now]
    of the clock, [is_time_for_new_block] on the timestamp of the block
    answers whether at least the block interval elapsed between the
    two readings; the [except] branch is not taken. *)
Theorem X23_gate_reads_ledger_timestamp
    (self : ProofOfAstronomy.t) (now created_at : Datetime.t)
    (snapshot : Snapshot.t) (s s' : AstroBlockchain.t) (b : Block.t) :
  valid_naive created_at = true ->
  Datetime.tzinfo now = None ->
  AstroBlockchain.create_block created_at snapshot s = Some (b, s') ->
  ProofOfAstronomy.is_time_for_new_block Iso.fromisoformat self now
    (Block.timestamp b)
  = (ProofOfAstronomy.block_interval self
     <=? Datetime.to_microseconds now - Datetime.to_microseconds created_at).
Proof.
  intros Hvalid Hnow Hcreate.
  apply create_block_inv in Hcreate as (latest & _ & -> & _).
  change (Block.timestamp (Block.init _ _ _ _ _))
    with (Datetime.isoformat created_at).
  unfold ProofOfAstronomy.is_time_for_new_block.
  destruct (String.eqb_spec (Datetime.isoformat created_at) "") as [E|_];
    [destruct (isoformat_nonempty _ E)|].
  rewrite clean_plain
    by (apply isoformat_plain; [exact Hvalid | reflexivity | reflexivity]).
  rewrite fromisoformat_isoformat by exact Hvalid. simpl.
  unfold Datetime.sub. rewrite Hnow.
  assert (Datetime.tzinfo created_at = None) as ->.
  { unfold valid_naive in Hvalid. apply andb_true_iff in Hvalid as [_ H].
    destruct (Datetime.tzinfo created_at); [discriminate | reflexivity]. }
  reflexivity.
Qed.

Lemma X23_gate_reads_ledger_timestamp_witness :
  ProofOfAstronomy.is_time_for_new_block Iso.fromisoformat demo_gate
    (Datetime.mk 2024 1 2 3 14 5 678 None)
    (Block.timestamp
       (Block.init ledger_clock 1 [] (Block.hash genesis_block) empty_snapshot))
  = (ProofOfAstronomy.block_interval demo_gate
     <=? Datetime.to_microseconds (Datetime.mk 2024 1 2 3 14 5 678 None)
         - Datetime.to_microseconds ledger_clock).
Proof.
  apply (X23_gate_reads_ledger_timestamp demo_gate
           (Datetime.mk 2024 1 2 3 14 5 678 None) ledger_clock empty_snapshot
           (AstroBlockchain.init ledger_clock) (ledger_of [])
           (Block.init ledger_clock 1 [] (Block.hash genesis_block) empty_snapshot)).
  - vm_compute. reflexivity.
  - reflexivity.
  - vm_compute. reflexivity.
Defined.

Lemma substring_prefix (n : nat) (s : string) :
  (n <= String.length s)%nat ->
  String.length (String.substring 0 n s) = n
  /\ exists rest, s = String.substring 0 n s +++ rest.
Proof.
  revert s. induction n as [|n IH]; intros s Hn.
  - destruct s; simpl; (split; [reflexivity | eexists; reflexivity]).
  - destruct s as [|c s]; simpl in Hn; [lia|].
    destruct (IH s ltac:(lia)) as [Hlen [rest Hrest]]. simpl. split.
    + rewrite Hlen. reflexivity.
    + exists rest. rewrite <- Hrest. reflexivity.
Qed.

(** X24. [ProofOfAstronomy(minutes)] raises exactly when [minutes] is
    below -1439999998560 or above 1439999999999, the range of
    [timedelta].  Otherwise the gate has an interval of [minutes]
    minutes, no last block time, the difficulty target ["0000"], and
    an identity of 16 characters that starts the hex digest of the
    printed clock reading. *)
Theorem X24_gate_construction (minutes : Z) (clock : spec_float) :
  match ProofOfAstronomy.init minutes clock with
  | Some self =>
      -1439999998560 <= minutes <= 1439999999999
      /\ ProofOfAstronomy.block_interval self = minutes * 60000000
      /\ ProofOfAstronomy.last_block_time self = None
      /\ ProofOfAstronomy.difficulty_target self = "0000"
      /\ String.length (ProofOfAstronomy.node_id self) = 16%nat
      /\ exists rest,
           sha256_hex (PyFloat.repr clock)
           = ProofOfAstronomy.node_id self +++ rest
  | None => minutes < -1439999998560 \/ 1439999999999 < minutes
  end.
Proof.
  unfold ProofOfAstronomy.init.
  pose proof (Z.div_mod (minutes * 60000000) 86400000000 ltac:(lia)) as Hdiv.
  pose proof (Z.mod_pos_bound (minutes * 60000000) 86400000000 ltac:(lia))
    as Hmod.
  destruct (Z.leb_spec (Z.abs (minutes * 60000000 / 86400000000)) 999999999)
    as [H|H].
  - destruct (substring_prefix 16 (sha256_hex (PyFloat.repr clock)))
      as [Hlen Hrest]; [rewrite sha256_hex_length; lia|].
    cbn [ProofOfAstronomy.block_interval ProofOfAstronomy.last_block_time
         ProofOfAstronomy.difficulty_target ProofOfAstronomy.node_id].
    repeat split; try assumption; lia.
  - lia.
Qed.

(** ** Timestamps of the clock in the fingerprint *)

Lemma valid_naive_bucket (dt : Datetime.t) :
  valid_naive dt = true ->
  valid_naive (Datetime.replace_minute dt (Datetime.minute dt / 10 * 10)) = true.
Proof.
  destruct dt as [y m d hh mm ss us tz]. unfold valid_naive. simpl.
  rewrite !andb_true_iff.
  intros [[[[[[[[[[[[[[Hy1 Hy2] Hm1] Hm2] Hd1] Hd2] Hh1] Hh2] Hmi1] Hmi2]
                  Hs1] Hs2] Hu1] Hu2] Htz].
  apply Z.leb_le in Hmi1. apply Z.ltb_lt in Hmi2.
  pose proof (Z.div_mod mm 10 ltac:(lia)) as Hdiv.
  pose proof (Z.mod_pos_bound mm 10 ltac:(lia)) as Hmod.
  repeat split; try assumption; try reflexivity;
    first [apply Z.leb_le | apply Z.ltb_lt]; lia.
Qed.

Lemma time_component_clock (dt : Datetime.t) :
  valid_naive dt = true ->
  ProofOfAstronomy.time_component Iso.fromisoformat (Datetime.isoformat dt)
  = "time_" +++ Datetime.isoformat
                  (Datetime.replace_minute dt (Datetime.minute dt / 10 * 10)).
Proof.
  intros Hvalid. unfold ProofOfAstronomy.time_component.
  rewrite (replace_absent "Z" "" "" _
             (isoformat_plain "Z" dt Hvalid eq_refl eq_refl)).
  rewrite fromisoformat_isoformat by exact Hvalid. reflexivity.
Qed.

(** X25. A snapshot stamped by the clock, as [get_astronomical_snapshot]
    and the mock snapshot of the demo are, is fingerprinted as if it
    were stamped at the start of its ten-minute window: the time
    component is that start, without seconds, and the fingerprint
    equals the one of the same snapshot stamped at that start. *)
Theorem X25_clock_timestamp_bucket (dt : Datetime.t)
    (type : option string) (sources : option Snapshot.Sources)
    (fingerprint : option string) :
  valid_naive dt = true ->
  let start := Datetime.replace_minute dt (Datetime.minute dt / 10 * 10) in
  ProofOfAstronomy.time_component Iso.fromisoformat (Datetime.isoformat dt)
  = "time_" +++ Datetime.isoformat start
  /\ ProofOfAstronomy.calculate_astronomical_consensus Iso.fromisoformat
       (Snapshot.mk type (Some (Datetime.isoformat dt)) sources fingerprint)
     = ProofOfAstronomy.calculate_astronomical_consensus Iso.fromisoformat
         (Snapshot.mk type (Some (Datetime.isoformat start)) sources fingerprint).
Proof.
  intros Hvalid start.
  pose proof (time_component_clock dt Hvalid) as Hdt.
  pose proof (time_component_clock start (valid_naive_bucket dt Hvalid)) as Hstart.
  assert (Datetime.replace_minute start (Datetime.minute start / 10 * 10) = start)
    as Hidem.
  { unfold start, Datetime.replace_minute. simpl.
    rewrite Z.div_mul by lia. reflexivity. }
  rewrite Hidem in Hstart. split; [exact Hdt|].
  unfold ProofOfAstronomy.calculate_astronomical_consensus.
  rewrite !consensus_components_timestamp by apply isoformat_nonempty.
  rewrite Hdt, Hstart. reflexivity.
Qed.

Lemma X25_clock_timestamp_bucket_witness :
  let start := Datetime.replace_minute ledger_clock
                 (Datetime.minute ledger_clock / 10 * 10) in
  ProofOfAstronomy.time_component Iso.fromisoformat
    (Datetime.isoformat ledger_clock)
  = "time_" +++ Datetime.isoformat start
  /\ ProofOfAstronomy.calculate_astronomical_consensus Iso.fromisoformat
       (Snapshot.mk None (Some (Datetime.isoformat ledger_clock)) None None)
     = ProofOfAstronomy.calculate_astronomical_consensus Iso.fromisoformat
         (Snapshot.mk None (Some (Datetime.isoformat start)) None None).
Proof.
  apply (X25_clock_timestamp_bucket ledger_clock None None None).
  vm_compute. reflexivity.
Defined.

(** ** The full run of the demo *)

Section DemoRun.

Import AstroChainDemo.

Variable fromisoformat : string -> option Datetime.t.

Lemma demo_balances (tx1 tx2 tx3 : Transaction.t) :
  transfer_of tx1
  = ("astro_alice", "astro_bob", Float (PyFloat.of_decimal false 100 0)) ->
  transfer_of tx2
  = ("astro_bob", "astro_charlie", Float (PyFloat.of_decimal false 50 0)) ->
  transfer_of tx3
  = ("astro_charlie", "astro_alice", Float (PyFloat.of_decimal false 25 0)) ->
  AstroBlockchain.foldM (AstroBlockchain.balance_step "astro_alice")
    [tx1; tx2; tx3] (Int 0)
  = Some (Float (PyFloat.of_decimal true 75 0))
  /\ AstroBlockchain.foldM (AstroBlockchain.balance_step "astro_bob")
       [tx1; tx2; tx3] (Int 0)
     = Some (Float (PyFloat.of_decimal false 50 0))
  /\ AstroBlockchain.foldM (AstroBlockchain.balance_step "astro_charlie")
       [tx1; tx2; tx3] (Int 0)
     = Some (Float (PyFloat.of_decimal false 25 0)).
Proof.
  destruct tx1 as [f1 r1 a1 ts1 d1 h1], tx2 as [f2 r2 a2 ts2 d2 h2],
    tx3 as [f3 r3 a3 ts3 d3 h3].
  unfold transfer_of. simpl. intros [= -> -> ->] [= -> -> ->] [= -> -> ->].
  repeat split; vm_compute; reflexivity.
Qed.

Lemma flow_pending (t0 : Datetime.t) (tx1 tx2 tx3 : Transaction.t)
    (address : string) :
  let s := AstroBlockchain.add_transaction tx3
             (AstroBlockchain.add_transaction tx2
                (AstroBlockchain.add_transaction tx1 (AstroBlockchain.init t0))) in
  reachable s
  /\ length (AstroBlockchain.chain s) = 1%nat
  /\ AstroBlockchain.pending_transactions s = [tx1; tx2; tx3]
  /\ AstroBlockchain.get_balance s address = Some (Int 0).
Proof.
  intros s. split; [repeat constructor|].
  split; [reflexivity|]. split; reflexivity.
Qed.

Lemma flow_block (t0 now : Datetime.t) (snapshot : Snapshot.t)
    (tx1 tx2 tx3 : Transaction.t) :
  let s := AstroBlockchain.add_transaction tx3
             (AstroBlockchain.add_transaction tx2
                (AstroBlockchain.add_transaction tx1 (AstroBlockchain.init t0))) in
  exists b s',
    AstroBlockchain.create_block now snapshot s = Some (b, s')
    /\ reachable s'
    /\ length (AstroBlockchain.chain s') = 2%nat
    /\ AstroBlockchain.pending_transactions s' = []
    /\ forall address,
         AstroBlockchain.get_balance s' address
         = AstroBlockchain.foldM (AstroBlockchain.balance_step address)
             [tx1; tx2; tx3] (Int 0).
Proof.
  intros s.
  destruct (flow_pending t0 tx1 tx2 tx3 "") as (Hr & _ & _ & _). fold s in Hr.
  destruct (get_latest_block_some s (reachable_nonempty s Hr)) as [latest Hl].
  pose proof (create_block_some now snapshot s latest Hl) as Hc.
  eexists _, _. split; [exact Hc|].
  split; [eapply reach_create; [exact Hr | exact Hc]|].
  split; [reflexivity|]. split; [reflexivity|].
  intros address. rewrite get_balance_snoc. reflexivity.
Qed.

Lemma show_final_state_some (s : AstroBlockchain.t) :
  reachable s ->
  (forall address, is_Some (AstroBlockchain.get_balance s address)) ->
  is_Some (show_final_state s).
Proof.
  intros Hr Hb. unfold show_final_state, get_chain_info.
  destruct (get_latest_block_some s (reachable_nonempty s Hr)) as [latest Hl].
  rewrite Hl. simpl.
  destruct (Hb "astro_alice") as [a ->]. destruct (Hb "astro_bob") as [b ->].
  destruct (Hb "astro_charlie") as [c ->]. simpl. eauto.
Qed.

(** X26. [run_full_demo] on a new ledger returns [False] exactly when
    the consensus step raises.  When the step grants the block, the run
    leaves a valid chain of two blocks with nothing pending and the
    balances -75.0, 50.0 and 25.0 for alice, bob and charlie; when it
    does not, the chain is the genesis block alone, the three
    transactions stay pending and every balance is the [int] 0. *)
Theorem X26_full_demo (consensus : ProofOfAstronomy.t)
    (t0 t1 t2 t3 t_mock t_block : Datetime.t) (fetched : Snapshot.t) :
  let result :=
    run_full_demo fromisoformat consensus t1 t2 t3 t_mock t_block fetched
      (AstroBlockchain.init t0) in
  let final := snd result in
  match demonstrate_astronomical_consensus fromisoformat consensus t_mock
          fetched with
  | None => fst result = false
  | Some (astronomical_data, true) =>
      fst result = true
      /\ length (AstroBlockchain.chain final) = 2%nat
      /\ AstroBlockchain.pending_transactions final = []
      /\ AstroBlockchain.is_chain_valid final = true
      /\ AstroBlockchain.get_balance final "astro_alice"
         = Some (Float (PyFloat.of_decimal true 75 0))
      /\ AstroBlockchain.get_balance final "astro_bob"
         = Some (Float (PyFloat.of_decimal false 50 0))
      /\ AstroBlockchain.get_balance final "astro_charlie"
         = Some (Float (PyFloat.of_decimal false 25 0))
  | Some (astronomical_data, false) =>
      fst result = true
      /\ length (AstroBlockchain.chain final) = 1%nat
      /\ length (AstroBlockchain.pending_transactions final) = 3%nat
      /\ forall address,
           AstroBlockchain.get_balance final address = Some (Int 0)
  end.
Proof.
  intros result final. subst final result. unfold run_full_demo.
  unfold demonstrate_transaction_flow.
  set (tx1 := TransactionOps.init t1 _ _ _ _).
  set (tx2 := TransactionOps.init t2 _ _ _ _).
  set (tx3 := TransactionOps.init t3 _ _ _ _).
  destruct (demonstrate_astronomical_consensus fromisoformat consensus t_mock
              fetched) as [[astronomical_data [|]]|]; [| |reflexivity].
  - destruct (flow_block t0 t_block astronomical_data tx1 tx2 tx3)
      as (b & s' & Hc & Hr & Hlen & Hpending & Hbal).
    unfold demonstrate_block_creation. rewrite Hc. simpl.
    destruct (demo_balances tx1 tx2 tx3 eq_refl eq_refl eq_refl)
      as (Ha & Hb & Hcc).
    assert (forall address, is_Some (AstroBlockchain.get_balance s' address))
      as Hsome.
    { intros address. rewrite Hbal.
      destruct (foldM_floats address [tx1; tx2; tx3] (Int 0) eq_refl
                  (or_introl eq_refl)) as (r & -> & _).
      eauto. }
    destruct (show_final_state_some s' Hr Hsome) as [info ->]. simpl.
    rewrite !Hbal. repeat split; try assumption.
    apply reachable_valid, Hr.
  - destruct (flow_pending t0 tx1 tx2 tx3 "") as (Hr & Hlen & Hpending & _).
    assert (forall address,
              AstroBlockchain.get_balance
                (AstroBlockchain.add_transaction tx3
                   (AstroBlockchain.add_transaction tx2
                      (AstroBlockchain.add_transaction tx1
                         (AstroBlockchain.init t0)))) address = Some (Int 0))
      as Hzero by (intros address; apply flow_pending).
    destruct (show_final_state_some _ Hr) as [info ->].
    { intros address. rewrite Hzero. eauto. }
    simpl. repeat split; assumption.
Qed.

End DemoRun.
